(** * A shallow embedding of the chat and ingestion server (src/index.js)

    The server has two routes.  [POST /api/chat] keeps one transcript per
    caller in the module-level object [userConvHistories], runs the LangChain
    [chain] (question rewriting, retrieval, answer synthesis) and stores the
    exchange.  [POST /api/load-documents] crawls a site, serialises the crawled
    batch, splits it and hands the pieces to the vector store.

    The language model, the retriever, the crawler, the splitter and the vector
    store are collaborators reached over the network: they are a record of
    functions the development is parametric in, and every call to one of them
    is recorded in a trace.  Everything index.js itself computes (the transcript
    bookkeeping, the prompt templates, the joining of documents, the wiring of
    the chain, the two handlers with their try/catch) is transcribed below.

    [chat] and [load_documents] run a handler from its first line to its
    response with no other request in between.  The chat handler is also given
    in two halves, split at its [await], and a server that takes the steps of
    several requests in any order: see the part on requests that overlap. *)

From Stdlib Require Import Ascii String.
From stdpp Require Import gmap strings list fin_maps.

(** ** JavaScript values and strings *)

(** The line feed, written [\n] in the source, and the double quote. *)
Definition nl : string := String (ascii_of_nat 10) EmptyString.
Definition dq : string := String (ascii_of_nat 34) EmptyString.

(** The JSON values a request body field can hold, as far as the handlers look
    at them: a field that is absent reads as [JUndefined].  Numbers, arrays and
    objects are left out; their string coercion plays no part below. *)
Inductive jsval :=
| JUndefined
| JNull
| JBool (b : bool)
| JStr (s : string).

#[global] Instance jsval_eq_dec : EqDecision jsval.
Proof. solve_decision. Defined.

(** [ToString], the coercion a template literal [`${v}`] and string
    concatenation [s + v] apply. *)
Definition ToString (v : jsval) : string :=
  match v with
  | JUndefined => "undefined"
  | JNull => "null"
  | JBool true => "true"
  | JBool false => "false"
  | JStr s => s
  end.

(** A plain object with string keys, such as a parsed request body or the
    argument of [res.json]. *)
Abbreviation jsobj := (gmap string jsval).

(** Reading a property: a missing key reads as [undefined]. *)
Definition get_prop (o : jsobj) (k : string) : jsval :=
  default JUndefined (o !! k).

(** [Array.prototype.join] on an array of strings: the accumulator starts
    empty, and from the second element on the separator is added before the
    element. *)
Definition Array_join (sep : string) (l : list string) : string :=
  snd (fold_left
         (fun (acc : nat * string) (x : string) =>
            (S (fst acc),
             (match fst acc with
              | O => snd acc
              | S _ => snd acc +:+ sep
              end) +:+ x))
         l (O, EmptyString)).

(** ** Errors and results *)

Inductive js_error :=
| TypeError (msg : string)
| Error (msg : string).

Inductive result (A : Type) :=
| Ok (a : A)
| Throw (e : js_error).
Arguments Ok {A} a.
Arguments Throw {A} e.

(** ** Documents and the options the handlers build *)

(** A LangChain [Document]: its text and its metadata, in insertion order. *)
Record Document := {
  pageContent : string;
  metadata : list (string * jsval);
}.

(** The [wordwrap] option of html-to-text: a number of characters after which a
    line is broken, or [false]/[null] to switch wrapping off. *)
Inductive wordwrap_option :=
| WrapOff
| WrapAt (width : nat).

Record HtmlToTextOptions := {
  wordwrap : wordwrap_option;
}.

(** The options of [RecursiveUrlLoader] that index.js sets: the extractor
    (given by the options it was compiled from) and the depth bound. *)
Record LoaderOptions := {
  extractor : HtmlToTextOptions;
  maxDepth : nat;
}.

(** ** Prompt templates

    [PromptTemplate.fromTemplate] takes an f-string: [{name}] is a variable,
    doubled braces stand for a brace, a lone closing brace or an unclosed
    opening brace is an error.  Formatting parses the template into literal and
    variable nodes and concatenates them, a variable being replaced by the
    string coercion of its value; a variable with no key in the values is an
    error. *)

Inductive fnode :=
| FLiteral (text : string)
| FVariable (name : string).

Definition is_open (c : ascii) : bool := Ascii.eqb c "{"%char.
Definition is_close (c : ascii) : bool := Ascii.eqb c "}"%char.

Definition snoc_char (s : string) (c : ascii) : string :=
  s +:+ String c EmptyString.

(** A run of literal text becomes one node; an empty run becomes none. *)
Definition literal_run (acc : string) : list fnode :=
  match acc with
  | EmptyString => []
  | _ => [FLiteral acc]
  end.

Definition prepend (ns : list fnode) (r : result (list fnode)) : result (list fnode) :=
  match r with
  | Ok ms => Ok (ns ++ ms)
  | Throw e => Throw e
  end.

Fixpoint parse_text (acc : string) (s : string) {struct s} : result (list fnode) :=
  match s with
  | EmptyString => Ok (literal_run acc)
  | String c s' =>
      if is_open c then
        match s' with
        | String c' s'' =>
            if is_open c'
            then prepend (literal_run acc ++ [FLiteral "{"]) (parse_text EmptyString s'')
            else prepend (literal_run acc) (parse_name EmptyString s')
        | EmptyString => Throw (Error "Unclosed '{' in template.")
        end
      else if is_close c then
        match s' with
        | String c' s'' =>
            if is_close c'
            then prepend (literal_run acc ++ [FLiteral "}"]) (parse_text EmptyString s'')
            else Throw (Error "Single '}' in template.")
        | EmptyString => Throw (Error "Single '}' in template.")
        end
      else parse_text (snoc_char acc c) s'
  end
with parse_name (acc : string) (s : string) {struct s} : result (list fnode) :=
  match s with
  | EmptyString => Throw (Error "Unclosed '{' in template.")
  | String c s' =>
      if is_close c
      then prepend [FVariable acc] (parse_text EmptyString s')
      else parse_name (snoc_char acc c) s'
  end.

Definition parseFString (template : string) : result (list fnode) :=
  parse_text EmptyString template.

Fixpoint interpolate (nodes : list fnode) (values : jsobj) (res : string) : result string :=
  match nodes with
  | [] => Ok res
  | FLiteral text :: rest => interpolate rest values (res +:+ text)
  | FVariable name :: rest =>
      match values !! name with
      | Some v => interpolate rest values (res +:+ ToString v)
      | None => Throw (Error ("Missing value for input " +:+ name))
      end
  end.

Definition PromptTemplate_format (template : string) (values : jsobj) : result string :=
  match parseFString template with
  | Ok nodes => interpolate nodes values EmptyString
  | Throw e => Throw e
  end.

(** The two templates of index.js (lines 45 and 47). *)
Definition standAloneQuestionTemplate : string :=
  "Given a conversation history (if any) and a question, convert it to a standalone question."
  +:+ nl +:+ "Conversation history: {conv_history}"
  +:+ nl +:+ "Question: {question} Standalone question:".

Definition answerTemplate : string :=
  "You are a helpful and enthusiastic support bot who can answer a given question about Scrimba based on the context provided and the conversation history. Try to find the answer in the context. If the answer is not given in the context, find the answer in the conversation history if possible. If you really don't know the answer, say "
  +:+ dq +:+ "I'm sorry, I don't know the answer to that." +:+ dq
  +:+ " And direct the questioner to email help@company.com. Don't try to make up an answer. Always speak as if you were chatting to a friend."
  +:+ nl +:+ "Context: {context}"
  +:+ nl +:+ "Conversation history: {conv_history}"
  +:+ nl +:+ "Question: {question}"
  +:+ nl +:+ "Answer: ".

(** ** The world: the transcript store, the array heap and the trace *)

(** Arrays are objects with identity: [userConvHistories] maps a key to a
    reference, and the heap maps a reference to the array's contents.  A
    reference is an index into the heap; a new array takes the next index. *)
Abbreviation loc := nat.

(** What the process does to the outside, in order. *)
Inductive event :=
| LlmInvoke (prompt : string)
| RetrieverInvoke (query : string)
| ConsoleLog (docs : list Document)
| ConsoleError (e : js_error)
| LoaderLoad (url : jsval) (opts : LoaderOptions)
| SplitterCreateDocuments (texts : list string)
| VectorStoreFromDocuments (docs : list Document) (tableName : string).

Record world := {
  userConvHistories : gmap string loc;
  arrays : list (list string);
  trace : list event;
}.

Definition set_arrays (w : world) (a : list (list string)) : world :=
  {| userConvHistories := userConvHistories w; arrays := a; trace := trace w |}.

Definition set_histories (w : world) (m : gmap string loc) : world :=
  {| userConvHistories := m; arrays := arrays w; trace := trace w |}.

Definition emit (w : world) (e : event) : world :=
  {| userConvHistories := userConvHistories w; arrays := arrays w;
     trace := trace w ++ [e] |}.

(** The process starts with [userConvHistories = {}] and no array. *)
Definition initial_world : world :=
  {| userConvHistories := ∅; arrays := []; trace := [] |}.

(** The collaborators.  Each answers from the trace so far and its argument,
    so the same prompt can be answered differently at different times.  [llm]
    stands for the chat model followed by [StringOutputParser];
    [JSON_stringify] is the built-in, at the type it is used at. *)
Record Services := {
  JSON_stringify : list Document -> string;
  llm : list event -> string -> result string;
  retriever : list event -> string -> result (list Document);
  loader_load : list event -> jsval -> LoaderOptions -> result (list Document);
  splitter_createDocuments : list event -> list string -> result (list Document);
  fromDocuments : list event -> list Document -> string -> result unit;
}.

(** ** A state and exception monad

    A computation takes the world and gives a value or a thrown error, and the
    world as it then is: what was written before a throw stays written. *)
Definition M (A : Type) : Type := world -> result A * world.

#[global] Instance M_ret : MRet M := fun A (a : A) (w : world) => (Ok a, w).

#[global] Instance M_bind : MBind M := fun A B (f : A -> M B) (m : M A) (w : world) =>
  match m w with
  | (Ok a, w') => f a w'
  | (Throw e, w') => (Throw e, w')
  end.

Definition throw {A : Type} (e : js_error) : M A := fun w => (Throw e, w).

Definition lift {A : Type} (r : result A) : M A := fun w => (r, w).

(** [try { body } catch (error) { handler }] around a handler body: the value
    of the statement is the response that was sent. *)
Definition try_catch {A : Type} (body : M A) (handler : js_error -> M A) : M A :=
  fun w =>
    match body w with
    | (Ok a, w') => (Ok a, w')
    | (Throw e, w') => handler e w'
    end.

Definition log (e : event) : M unit := fun w => (Ok tt, emit w e).

(** A call to a collaborator: the call is recorded, and the collaborator
    answers from the trace before the call. *)
Definition call {A : Type} (e : event) (answer : list event -> result A) : M A :=
  fun w => (answer (trace w), emit w e).

(** ** The transcript store (index.js lines 19, 85, 88, 97, 100) *)

(** [userConvHistories] is an object literal, so a key it does not own is
    looked up on [Object.prototype]; these are the names found there, each
    bound to a function or an object, neither of which has [push]. *)
Definition Object_prototype_keys : list string :=
  [ "constructor"; "__proto__"; "hasOwnProperty"; "isPrototypeOf";
    "propertyIsEnumerable"; "toLocaleString"; "toString"; "valueOf";
    "__defineGetter__"; "__defineSetter__"; "__lookupGetter__";
    "__lookupSetter__" ].

Definition inherited (k : string) : bool :=
  bool_decide (k ∈ Object_prototype_keys).

(** What [convHistory] is bound to after line 85. *)
Inductive history_ref :=
| ArrayRef (r : loc)
| InheritedProp.

(** [userConvHistories[userId] || []]: an array is truthy even when empty, so
    a stored array is returned as it is, the very object the store holds;
    otherwise, unless the prototype answers, a new empty array is made, which
    the store does not hold yet. *)
Definition get_or_new (userId : string) : M history_ref := fun w =>
  match userConvHistories w !! userId with
  | Some r => (Ok (ArrayRef r), w)
  | None =>
      if inherited userId then (Ok InheritedProp, w)
      else (Ok (ArrayRef (length (arrays w))), set_arrays w (arrays w ++ [[]]))
  end.

(** [convHistory.push(entry)]: the array is changed in place.  A reference
    always points into the heap in a well-formed world ([wf] below); the
    branch for one that does not is there to make the function total. *)
Definition push (h : history_ref) (entry : string) : M unit := fun w =>
  match h with
  | ArrayRef r =>
      match arrays w !! r with
      | Some l => (Ok tt, set_arrays w (<[r := l ++ [entry]]> (arrays w)))
      | None => (Throw (TypeError "dangling array reference"), w)
      end
  | InheritedProp => (Throw (TypeError "convHistory.push is not a function"), w)
  end.

(** Reading the array [convHistory] refers to. *)
Definition read (h : history_ref) : M (list string) := fun w =>
  match h with
  | ArrayRef r =>
      match arrays w !! r with
      | Some l => (Ok l, w)
      | None => (Throw (TypeError "dangling array reference"), w)
      end
  | InheritedProp => (Throw (TypeError "not an array"), w)
  end.

(** [userConvHistories[userId] = convHistory].  The handler reaches this line
    only with an array, the first [push] having thrown otherwise. *)
Definition save (userId : string) (h : history_ref) : M unit := fun w =>
  match h with
  | ArrayRef r => (Ok tt, set_histories w (<[userId := r]> (userConvHistories w)))
  | InheritedProp => (Ok tt, w)
  end.

(** The transcript the store holds for a caller: empty when it holds none. *)
Definition transcript (w : world) (userId : string) : list string :=
  match userConvHistories w !! userId with
  | Some r => default [] (arrays w !! r)
  | None => []
  end.

(** [formatConvHistory] (line 22). *)
Definition formatConvHistory (messages : list string) : string :=
  Array_join nl messages.

(** ** Requests and responses *)

(** [req.body] is the parsed JSON object, or undefined when no middleware has
    set it.  Under Express 4 [express.json()] leaves the empty object on a
    request without a JSON body, so undefined is received only where the
    framework leaves the field unset (Express 5).  [req.ip] is the remote
    address, or undefined. *)
Record request := {
  body : option jsobj;
  ip : option string;
}.

(** What [res.status(...).json(...)] sends; [res.json] alone sends 200. *)
Record response := {
  status : nat;
  json : jsobj;
}.

(** The messages of the [TypeError]s V8 throws for [const { question } =
    req.body] (line 81) and for [req.body.url] (line 113) when [req.body] is
    undefined. *)
Definition cannot_destructure_question : string :=
  "Cannot destructure property 'question' of 'req.body' as it is undefined.".

Definition cannot_read_url : string :=
  "Cannot read properties of undefined (reading 'url')".

(** Reading a property of [req.body]: the property's value, undefined when
    the object has no such key, and a [TypeError] with the given message when
    the body itself is undefined. *)
Definition body_prop (req : request) (k : string) (thrown : string) : M jsval :=
  match body req with
  | Some o => mret (get_prop o k)
  | None => throw (TypeError thrown)
  end.

(** A property key made of [req.ip]. *)
Definition property_key (i : option string) : string :=
  default "undefined" i.

(** The value flowing out of the first step of [chain] (lines 66-69). *)
Record rewritten := {
  standalone_question : string;
  original_input : jsobj;
}.

Section Server.

Context (srv : Services).

Definition invoke_llm (prompt : string) : M string :=
  call (LlmInvoke prompt) (fun t => llm srv t prompt).

Definition invoke_retriever (query : string) : M (list Document) :=
  call (RetrieverInvoke query) (fun t => retriever srv t query).

(** [combineDocuments] (lines 147-150). *)
Definition combineDocuments (docs : list Document) : M string :=
  log (ConsoleLog docs);;
  mret (Array_join (nl +:+ nl) (map pageContent docs)).

(** [standaloneQuestionChain] (lines 57-62): prompt, model, parser. *)
Definition standaloneQuestionChain (input : jsobj) : M string :=
  prompt ← lift (PromptTemplate_format standAloneQuestionTemplate input);
  invoke_llm prompt.

(** [retrieverChain] (lines 51-55). *)
Definition retrieverChain (prevResult : rewritten) : M string :=
  docs ← invoke_retriever (standalone_question prevResult);
  combineDocuments docs.

(** [answerChain] (line 56). *)
Definition answerChain (input : jsobj) : M string :=
  prompt ← lift (PromptTemplate_format answerTemplate input);
  invoke_llm prompt.

(** [chain] (lines 65-76).  Of the entries of each map only one calls a
    collaborator, so the order within a map does not show. *)
Definition chain (input : jsobj) : M string :=
  sq ← standaloneQuestionChain input;
  let prevResult := {| standalone_question := sq; original_input := input |} in
  context ← retrieverChain prevResult;
  answerChain
    {[ "context" := JStr context;
       "question" := get_prop (original_input prevResult) "question";
       "conv_history" := get_prop (original_input prevResult) "conv_history" ]}.

Definition internal_server_error : response :=
  {| status := 500; json := {[ "error" := JStr "Internal Server Error" ]} |}.

(** The [catch] block both handlers share (lines 104-107, 140-143). *)
Definition on_error (error : js_error) : M response :=
  log (ConsoleError error);;
  mret internal_server_error.

(** The [try] block of [POST /api/chat] (lines 81-103). *)
Definition chat_try (req : request) : M response :=
  question ← body_prop req "question" cannot_destructure_question;
  let userId := property_key (ip req) in
  convHistory ← get_or_new userId;
  push convHistory ("Human: " +:+ ToString question);;
  messages ← read convHistory;
  response ← chain {[ "question" := question;
                      "conv_history" := JStr (formatConvHistory messages) ]};
  push convHistory ("AI: " +:+ response);;
  save userId convHistory;;
  mret {| status := 200; json := {[ "response" := JStr response ]} |}.

(** [POST /api/chat] (lines 79-108). *)
Definition chat (req : request) : M response :=
  try_catch (chat_try req) on_error.

(** [compiledConvert] is compiled from these options (line 116). *)
Definition compiledConvert : HtmlToTextOptions :=
  {| wordwrap := WrapAt 1000 |}.

(** The second argument of [new RecursiveUrlLoader] (lines 119-122). *)
Definition loader_options : LoaderOptions :=
  {| extractor := compiledConvert; maxDepth := 1000 |}.

(** The [try] block of [POST /api/load-documents] (lines 113-139). *)
Definition load_documents_try (req : request) : M response :=
  url ← body_prop req "url" cannot_read_url;
  docs ← call (LoaderLoad url loader_options)
              (fun t => loader_load srv t url loader_options);
  let texts := [JSON_stringify srv docs] in
  output ← call (SplitterCreateDocuments texts)
                (fun t => splitter_createDocuments srv t texts);
  call (VectorStoreFromDocuments output "documents")
       (fun t => fromDocuments srv t output "documents");;
  mret {| status := 200; json := {[ "success" := JBool true ]} |}.

(** [POST /api/load-documents] (lines 111-144). *)
Definition load_documents (req : request) : M response :=
  try_catch (load_documents_try req) on_error.

End Server.

(** ** Requests that overlap

    The chat handler is an async function: at [await chain.invoke(...)]
    (line 91) it is suspended, and other requests run before it goes on.  What
    it holds across the await are its local variables.  The first half below
    is lines 81-88 with the argument of [chain.invoke] (lines 92-93), the
    second half is the chain and lines 97-103; the [try] spans both.  The
    calls of the chain touch the trace only, so they are placed in the second
    half; the store is read and written at lines 85, 88, 97 and 100 only. *)

(** The locals a suspended chat request goes on with, and the argument it
    has evaluated. *)
Record suspended := {
  s_userId : string;
  s_convHistory : history_ref;
  s_input : jsobj;
}.

(** Lines 81-88 and 92-93. *)
Definition chat_until_await (req : request) : M suspended :=
  question ← body_prop req "question" cannot_destructure_question;
  let userId := property_key (ip req) in
  convHistory ← get_or_new userId;
  push convHistory ("Human: " +:+ ToString question);;
  messages ← read convHistory;
  mret {| s_userId := userId;
          s_convHistory := convHistory;
          s_input := {[ "question" := question;
                        "conv_history" := JStr (formatConvHistory messages) ]} |}.

Section Overlap.

Context (srv : Services).

(** Lines 91 and 97-103. *)
Definition chat_from_await (p : suspended) : M response :=
  response ← chain srv (s_input p);
  push (s_convHistory p) ("AI: " +:+ response);;
  save (s_userId p) (s_convHistory p);;
  mret {| status := 200; json := {[ "response" := JStr response ]} |}.

(** The server between two steps: the world, and the chat requests that are
    suspended at their await, each under the number it arrived with. *)
Record server := {
  sworld : world;
  in_flight : gmap nat suspended;
  next_id : nat;
}.

(** A step of the server: a chat request arrives and runs to its await (or to
    its [catch]), a suspended chat request goes on to its response, or an
    ingestion request is handled.  The ingestion handler never reads or
    writes the store, so it is taken as one step. *)
Inductive action :=
| Arrive (req : request)
| Resume (id : nat)
| Ingest (req : request).

Definition sent (r : result response) : option response :=
  match r with
  | Ok rsp => Some rsp
  | Throw _ => None
  end.

(** The response a step sends, if it sends one, and the server after it. *)
Definition act (a : action) (s : server) : option response * server :=
  match a with
  | Arrive req =>
      match chat_until_await req (sworld s) with
      | (Ok p, w) =>
          (None,
           {| sworld := w;
              in_flight := <[next_id s := p]> (in_flight s);
              next_id := S (next_id s) |})
      | (Throw e, w) =>
          (sent (on_error e w).1,
           {| sworld := (on_error e w).2;
              in_flight := in_flight s;
              next_id := S (next_id s) |})
      end
  | Resume id =>
      match in_flight s !! id with
      | Some p =>
          (sent (try_catch (chat_from_await p) on_error (sworld s)).1,
           {| sworld := (try_catch (chat_from_await p) on_error (sworld s)).2;
              in_flight := delete id (in_flight s);
              next_id := next_id s |})
      | None => (None, s)
      end
  | Ingest req =>
      (sent (load_documents srv req (sworld s)).1,
       {| sworld := (load_documents srv req (sworld s)).2;
          in_flight := in_flight s;
          next_id := next_id s |})
  end.

Fixpoint run (acts : list action) (s : server) : server :=
  match acts with
  | [] => s
  | a :: rest => run rest (act a s).2
  end.

(** The caller a step belongs to. *)
Definition actor (a : action) (s : server) : option string :=
  match a with
  | Arrive req => Some (property_key (ip req))
  | Resume id => s_userId <$> in_flight s !! id
  | Ingest _ => None
  end.

(** None of the steps belongs to caller [u]. *)
Fixpoint others_only (u : string) (acts : list action) (s : server) : Prop :=
  match acts with
  | [] => True
  | a :: rest => actor a s <> Some u /\ others_only u rest (act a s).2
  end.

End Overlap.

(** The server at start-up. *)
Definition idle : server :=
  {| sworld := initial_world; in_flight := ∅; next_id := 0 |}.

(** The states the server can be in, requests overlapping as they may. *)
Inductive serving (srv : Services) : server -> Prop :=
| serving_idle : serving srv idle
| serving_act (a : action) (s : server) :
    serving srv s -> serving srv (act srv a s).2.

(** Every array belongs to one caller: a stored key refers to an array of its
    own, and so does every suspended request. *)
Definition owned (own : nat -> string) (s : server) : Prop :=
  (forall u r, userConvHistories (sworld s) !! u = Some r ->
     r < length (arrays (sworld s)) /\ own r = u) /\
  (forall id p, in_flight s !! id = Some p ->
     id < next_id s /\
     exists r, s_convHistory p = ArrayRef r /\
               r < length (arrays (sworld s)) /\ own r = s_userId p).

(** ** What the claims are stated with *)

(** Texts with the separator between consecutive ones, by recursion on the
    list: the specification's reading of a join. *)
Fixpoint separated (sep : string) (texts : list string) : string :=
  match texts with
  | [] => EmptyString
  | t :: rest =>
      match rest with
      | [] => t
      | _ :: _ => t +:+ sep +:+ separated sep rest
      end
  end.

(** The rewriting prompt: the first template with its two holes filled. *)
Definition standalone_prompt (conv_history question : string) : string :=
  "Given a conversation history (if any) and a question, convert it to a standalone question."
  +:+ nl +:+ "Conversation history: " +:+ conv_history
  +:+ nl +:+ "Question: " +:+ question +:+ " Standalone question:".

(** The synthesis prompt: the answer template with its three holes filled. *)
Definition answer_prompt (context conv_history question : string) : string :=
  "You are a helpful and enthusiastic support bot who can answer a given question about Scrimba based on the context provided and the conversation history. Try to find the answer in the context. If the answer is not given in the context, find the answer in the conversation history if possible. If you really don't know the answer, say "
  +:+ dq +:+ "I'm sorry, I don't know the answer to that." +:+ dq
  +:+ " And direct the questioner to email help@company.com. Don't try to make up an answer. Always speak as if you were chatting to a friend."
  +:+ nl +:+ "Context: " +:+ context
  +:+ nl +:+ "Conversation history: " +:+ conv_history
  +:+ nl +:+ "Question: " +:+ question
  +:+ nl +:+ "Answer: ".

(** The entries a request cycle writes (lines 88 and 97). *)
Definition human_entry (question : jsval) : string := "Human: " +:+ ToString question.
Definition ai_entry (response : string) : string := "AI: " +:+ response.

(** The store is well formed when every key refers to an array of the heap
    and no two keys refer to the same array. *)
Definition wf (w : world) : Prop :=
  (forall u r, userConvHistories w !! u = Some r -> r < length (arrays w)) /\
  (forall u1 u2 r, userConvHistories w !! u1 = Some r ->
                   userConvHistories w !! u2 = Some r -> u1 = u2).

(** The worlds the server can be in: the one it starts in, and the ones the
    two handlers leave. *)
Inductive reachable (srv : Services) : world -> Prop :=
| reachable_initial : reachable srv initial_world
| reachable_chat (req : request) (w : world) :
    reachable srv w -> reachable srv (chat srv req w).2
| reachable_load_documents (req : request) (w : world) :
    reachable srv w -> reachable srv (load_documents srv req w).2.

(** The events a handler added to the trace. *)
Definition new_events (before after : world) : list event :=
  drop (length (trace before)) (trace after).

Definition is_llm_invoke (e : event) : bool :=
  match e with LlmInvoke _ => true | _ => false end.

Definition is_loader_load (e : event) : bool :=
  match e with LoaderLoad _ _ => true | _ => false end.

Definition is_splitter_call (e : event) : bool :=
  match e with SplitterCreateDocuments _ => true | _ => false end.

(** The widest line html-to-text lets stand before it breaks it, if any: a
    width of zero counts as no width, as [false] and [null] do. *)
Definition wrap_width (o : HtmlToTextOptions) : option nat :=
  match wordwrap o with
  | WrapOff => None
  | WrapAt O => None
  | WrapAt (S n) => Some (S n)
  end.

(** Line 85 under a well-formed store: the reference [convHistory] holds and
    the world it holds it in. *)
Definition opened (w : world) (u : string) : loc * world :=
  match userConvHistories w !! u with
  | Some r => (r, w)
  | None => (length (arrays w), set_arrays w (arrays w ++ [[]]))
  end.

(** After the first element the loop of [join] only ever adds the separator and
    the next element. *)
Fixpoint each_after (sep : string) (texts : list string) : string :=
  match texts with
  | [] => EmptyString
  | t :: rest => sep +:+ t +:+ each_after sep rest
  end.

(** A transcript entry as the handler writes them: a question line or an
    answer line. *)
Fixpoint starts_with (p s : string) : bool :=
  match p, s with
  | EmptyString, _ => true
  | String a p', String b s' => Ascii.eqb a b && starts_with p' s'
  | String _ _, EmptyString => false
  end.

Definition is_entry (e : string) : bool :=
  starts_with "Human: " e || starts_with "AI: " e.

Definition is_question_entry (e : string) : bool :=
  starts_with "Human: " e.

(** A transcript that starts with a question line and holds only question
    and answer lines. *)
Definition well_shaped (l : list string) : bool :=
  match l with
  | [] => false
  | e :: _ => is_question_entry e && forallb is_entry l
  end.

(** ** The specification's sentences, where the code is compared with them *)

(** The normaliser imposes no wrap width. *)
Definition no_wrap_width_imposed (o : HtmlToTextOptions) : Prop :=
  wrap_width o = None.

(** The result of an ingestion carries a chunk count. *)
Definition reports_chunk_count (rsp : response) : Prop :=
  is_Some (json rsp !! "chunkCount").

(** The request is answered with the internal error and no model call was
    made for it. *)
Definition rejected_before_pipeline (srv : Services) (req : request) (w : world) : Prop :=
  (chat srv req w).1 = Ok internal_server_error /\
  filter (fun e => is_llm_invoke e = true) (new_events w (chat srv req w).2) = [].


(** A failed request leaves the caller's transcript as it was. *)
Definition failure_leaves_transcript (srv : Services) (req : request) (w : world) : Prop :=
  forall rsp, (chat srv req w).1 = Ok rsp -> status rsp = 500 ->
    transcript (chat srv req w).2 (property_key (ip req)) =
    transcript w (property_key (ip req)).


(** Collaborators of the chat pipeline that never throw. *)
Definition always_answer (srv : Services) : Prop :=
  (forall t p, exists s, llm srv t p = Ok s) /\
  (forall t q, exists ds, retriever srv t q = Ok ds).

(** ** Collaborators and requests to run the handlers on *)

Definition doc (text : string) : Document :=
  {| pageContent := text; metadata := [] |}.

(** [JSON.stringify] on an array of documents whose metadata values are
    strings, booleans, null or undefined, the metadata keys being given in
    the order the object lists them (keys that are array indices first, then
    the others as inserted): strings are quoted with the JSON escapes, a
    property whose value is undefined is left out, and no white space is
    added. *)
Definition bs : string := String (ascii_of_nat 92) EmptyString.

Definition hex_digit (n : nat) : string :=
  String (ascii_of_nat (if n <? 10 then 48 + n else 87 + n)) EmptyString.

Definition json_escape (c : ascii) : string :=
  let n := nat_of_ascii c in
  if n =? 34 then bs +:+ dq
  else if n =? 92 then bs +:+ bs
  else if n =? 8 then bs +:+ "b"
  else if n =? 9 then bs +:+ "t"
  else if n =? 10 then bs +:+ "n"
  else if n =? 12 then bs +:+ "f"
  else if n =? 13 then bs +:+ "r"
  else if n <? 32 then bs +:+ "u00" +:+ hex_digit (n / 16) +:+ hex_digit (n mod 16)
  else String c EmptyString.

Fixpoint json_escape_all (s : string) : string :=
  match s with
  | EmptyString => EmptyString
  | String c s' => json_escape c +:+ json_escape_all s'
  end.

Definition json_string (s : string) : string :=
  dq +:+ json_escape_all s +:+ dq.

Definition json_value (v : jsval) : option string :=
  match v with
  | JUndefined => None
  | JNull => Some "null"
  | JBool true => Some "true"
  | JBool false => Some "false"
  | JStr s => Some (json_string s)
  end.

Definition json_property (kv : string * jsval) : option string :=
  match json_value kv.2 with
  | Some s => Some (json_string kv.1 +:+ ":" +:+ s)
  | None => None
  end.

Definition json_object (props : list (string * jsval)) : string :=
  "{" +:+ Array_join "," (omap json_property props) +:+ "}".

Definition json_document (d : Document) : string :=
  "{" +:+ json_string "pageContent" +:+ ":" +:+ json_string (pageContent d)
  +:+ "," +:+ json_string "metadata" +:+ ":" +:+ json_object (metadata d) +:+ "}".

Definition json_documents (ds : list Document) : string :=
  "[" +:+ Array_join "," (map json_document ds) +:+ "]".

(** Collaborators that all answer: the model answers every prompt the same,
    the retriever returns two passages, the crawler one page, the chunker
    makes one chunk of each text. *)
Definition stub_services : Services :=
  {| JSON_stringify := json_documents;
     llm := fun _ _ => Ok "Courses.";
     retriever := fun _ _ =>
       Ok [doc "Scrimba offers courses on web development."; doc "Scrimba is free to try."];
     loader_load := fun _ _ _ => Ok [doc "Scrimba offers courses on web development."];
     splitter_createDocuments := fun _ ts => Ok (map doc ts);
     fromDocuments := fun _ _ _ => Ok tt |}.

(** The same, with a model that is down. *)
Definition down_services : Services :=
  {| JSON_stringify := JSON_stringify stub_services;
     llm := fun _ _ => Throw (Error "503");
     retriever := retriever stub_services;
     loader_load := loader_load stub_services;
     splitter_createDocuments := splitter_createDocuments stub_services;
     fromDocuments := fromDocuments stub_services |}.

(** Collaborators whose retriever is down. *)
Definition no_index_services : Services :=
  {| JSON_stringify := JSON_stringify stub_services;
     llm := llm stub_services;
     retriever := fun _ _ => Throw (Error "index unavailable");
     loader_load := loader_load stub_services;
     splitter_createDocuments := fun _ _ => Throw (Error "splitter failed");
     fromDocuments := fromDocuments stub_services |}.

Definition ask (q : string) : request :=
  {| body := Some {[ "question" := JStr q ]}; ip := Some "::1" |}.

Definition ask_from (address q : string) : request :=
  {| body := Some {[ "question" := JStr q ]}; ip := Some address |}.

(** A body that is an object without a [question]. *)
Definition ask_nothing : request :=
  {| body := Some ∅; ip := Some "::1" |}.

Definition load (url : string) : request :=
  {| body := Some {[ "url" := JStr url ]}; ip := Some "::1" |}.

(** An ingestion body that is an object without a [url]. *)
Definition load_nothing : request :=
  {| body := Some ∅; ip := Some "::1" |}.

(** The world after one answered question. *)
Definition after_one_exchange : world :=
  (chat stub_services (ask "What does Scrimba offer?") initial_world).2.

(** Collaborators whose model answers while the trace is short, as it is
    during a first exchange, and is down from then on. *)
Definition failing_later_services : Services :=
  {| JSON_stringify := JSON_stringify stub_services;
     llm := fun t _ => if length t <? 4 then Ok "Courses." else Throw (Error "503");
     retriever := retriever stub_services;
     loader_load := loader_load stub_services;
     splitter_createDocuments := splitter_createDocuments stub_services;
     fromDocuments := fromDocuments stub_services |}.

(** The server after one question answered by them. *)
Definition served_then_down : server :=
  run failing_later_services [Arrive (ask "What does Scrimba offer?"); Resume 0] idle.

(** The server after one answered question, nothing suspended. *)
Definition served_one : server :=
  run stub_services [Arrive (ask "What does Scrimba offer?"); Resume 0] idle.

(** The world after a second caller has been answered as well. *)
Definition after_two_callers : world :=
  (chat stub_services (ask_from "10.0.0.7" "Hello") after_one_exchange).2.

(** * Strings and templates *)

Lemma append_cons (c : ascii) (s t : string) : String c s +:+ t = String c (s +:+ t).
Proof. reflexivity. Qed.

Lemma append_assoc (s1 s2 s3 : string) : (s1 +:+ s2) +:+ s3 = s1 +:+ (s2 +:+ s3).
Proof.
  induction s1 as [|c s1 IH]; [reflexivity|].
  rewrite !append_cons. by rewrite IH.
Qed.

Lemma append_nil_r (s : string) : s +:+ EmptyString = s.
Proof.
  induction s as [|c s IH]; [reflexivity|].
  rewrite append_cons. by rewrite IH.
Qed.

Lemma join_loop_later (sep : string) (l : list string) (k : nat) (R : string) :
  snd (fold_left
         (fun (acc : nat * string) (x : string) =>
            (S (fst acc),
             (match fst acc with
              | O => snd acc
              | S _ => snd acc +:+ sep
              end) +:+ x))
         l (S k, R)) = R +:+ each_after sep l.
Proof.
  revert k R. induction l as [|x l IH]; intros k R; simpl.
  - by rewrite append_nil_r.
  - rewrite IH. by rewrite !append_assoc.
Qed.

Lemma separated_cons (sep x : string) (l : list string) :
  separated sep (x :: l) = x +:+ each_after sep l.
Proof.
  revert x. induction l as [|y l IH]; intros x.
  - simpl. by rewrite append_nil_r.
  - change (separated sep (x :: y :: l)) with (x +:+ sep +:+ separated sep (y :: l)).
    rewrite IH. reflexivity.
Qed.

Lemma Array_join_separated (sep : string) (l : list string) :
  Array_join sep l = separated sep l.
Proof.
  destruct l as [|x l]; [reflexivity|].
  rewrite separated_cons. unfold Array_join. simpl fold_left.
  apply join_loop_later.
Qed.

Lemma parse_standalone_template :
  parseFString standAloneQuestionTemplate =
  Ok [ FLiteral ("Given a conversation history (if any) and a question, convert it to a standalone question."
                 +:+ nl +:+ "Conversation history: ");
       FVariable "conv_history";
       FLiteral (nl +:+ "Question: ");
       FVariable "question";
       FLiteral " Standalone question:" ].
Proof. vm_compute. reflexivity. Qed.

Lemma parse_answer_template :
  parseFString answerTemplate =
  Ok [ FLiteral ("You are a helpful and enthusiastic support bot who can answer a given question about Scrimba based on the context provided and the conversation history. Try to find the answer in the context. If the answer is not given in the context, find the answer in the conversation history if possible. If you really don't know the answer, say "
                 +:+ dq +:+ "I'm sorry, I don't know the answer to that." +:+ dq
                 +:+ " And direct the questioner to email help@company.com. Don't try to make up an answer. Always speak as if you were chatting to a friend."
                 +:+ nl +:+ "Context: ");
       FVariable "context";
       FLiteral (nl +:+ "Conversation history: ");
       FVariable "conv_history";
       FLiteral (nl +:+ "Question: ");
       FVariable "question";
       FLiteral (nl +:+ "Answer: ") ].
Proof. vm_compute. reflexivity. Qed.

Lemma format_standalone (values : jsobj) (h q : jsval) :
  values !! "conv_history" = Some h ->
  values !! "question" = Some q ->
  PromptTemplate_format standAloneQuestionTemplate values =
  Ok (standalone_prompt (ToString h) (ToString q)).
Proof.
  intros Hh Hq. unfold PromptTemplate_format.
  rewrite parse_standalone_template. cbn [interpolate].
  rewrite Hh, Hq. unfold standalone_prompt.
  rewrite !append_assoc. reflexivity.
Qed.

Lemma format_answer (values : jsobj) (c h q : jsval) :
  values !! "context" = Some c ->
  values !! "conv_history" = Some h ->
  values !! "question" = Some q ->
  PromptTemplate_format answerTemplate values =
  Ok (answer_prompt (ToString c) (ToString h) (ToString q)).
Proof.
  intros Hc Hh Hq. unfold PromptTemplate_format.
  rewrite parse_answer_template. cbn [interpolate].
  rewrite Hc, Hh, Hq. unfold answer_prompt.
  rewrite !append_assoc. reflexivity.
Qed.

(** * Running the chain *)

Section Runs.

Context (srv : Services).

(** The chain, call by call: the rewriting prompt, the retrieval of the
    rewritten question, and the synthesis prompt, each failure ending it. *)
Lemma chain_run (input : jsobj) (h : string) (q : jsval) (w : world) :
  input !! "conv_history" = Some (JStr h) ->
  input !! "question" = Some q ->
  chain srv input w =
    let p1 := standalone_prompt h (ToString q) in
    let w1 := emit w (LlmInvoke p1) in
    match llm srv (trace w) p1 with
    | Throw e => (Throw e, w1)
    | Ok sq =>
        let w2 := emit w1 (RetrieverInvoke sq) in
        match retriever srv (trace w1) sq with
        | Throw e => (Throw e, w2)
        | Ok docs =>
            let w3 := emit w2 (ConsoleLog docs) in
            let p2 := answer_prompt (separated (nl +:+ nl) (map pageContent docs))
                                    h (ToString q) in
            (llm srv (trace w3) p2, emit w3 (LlmInvoke p2))
        end
    end.
Proof.
  intros Hh Hq.
  unfold chain, standaloneQuestionChain, retrieverChain, answerChain,
    combineDocuments, invoke_llm, invoke_retriever, call, log, lift,
    mbind, M_bind, mret, M_ret.
  rewrite (format_standalone input (JStr h) q Hh Hq).
  cbn [ToString].
  destruct (llm srv (trace w) _) as [sq|e]; [|reflexivity].
  cbn [standalone_question original_input].
  destruct (retriever srv _ sq) as [docs|e]; [|reflexivity].
  unfold get_prop. rewrite Hh, Hq. cbn [default from_option].
  rewrite (format_answer _ (JStr (Array_join (nl +:+ nl) (map pageContent docs)))
             (JStr h) q); [| reflexivity..].
  cbn [ToString]. rewrite Array_join_separated.
  destruct (llm srv _ _); reflexivity.
Qed.

(** The chain touches neither the store nor the heap. *)
Lemma chain_frame (input : jsobj) (w : world) :
  arrays (chain srv input w).2 = arrays w /\
  userConvHistories (chain srv input w).2 = userConvHistories w.
Proof.
  unfold chain, standaloneQuestionChain, retrieverChain, answerChain,
    combineDocuments, invoke_llm, invoke_retriever, call, log, lift,
    mbind, M_bind, mret, M_ret.
  destruct (PromptTemplate_format standAloneQuestionTemplate input); [|done].
  destruct (llm srv (trace w) _); [|done].
  destruct (retriever srv _ _); [|done].
  cbn [fst snd]. destruct (PromptTemplate_format answerTemplate _); [|done].
  destruct (llm srv _ _); done.
Qed.

Lemma get_or_new_opened (w : world) (u : string) :
  inherited u = false \/ is_Some (userConvHistories w !! u) ->
  get_or_new u w = (Ok (ArrayRef (opened w u).1), (opened w u).2).
Proof.
  intros H. unfold get_or_new, opened.
  destruct (userConvHistories w !! u) as [r|] eqn:E; [done|].
  destruct H as [->|[? ?]]; done.
Qed.

Lemma opened_lookup (w : world) (u : string) :
  wf w -> arrays (opened w u).2 !! (opened w u).1 = Some (transcript w u).
Proof.
  intros [Hb _]. unfold opened, transcript.
  destruct (userConvHistories w !! u) as [r|] eqn:E; cbn [fst snd arrays set_arrays].
  - destruct (lookup_lt_is_Some_2 (arrays w) r (Hb _ _ E)) as [l ->]. done.
  - rewrite lookup_app_r by lia. by rewrite Nat.sub_diag.
Qed.

Lemma opened_frame (w : world) (u : string) :
  userConvHistories (opened w u).2 = userConvHistories w /\
  trace (opened w u).2 = trace w.
Proof. unfold opened. by destruct (userConvHistories w !! u). Qed.

(** The other callers' arrays are where they were, and are not the one
    [convHistory] refers to. *)
Lemma opened_others (w : world) (u u' : string) (r' : loc) :
  wf w -> u' <> u -> userConvHistories w !! u' = Some r' ->
  r' <> (opened w u).1 /\ arrays (opened w u).2 !! r' = arrays w !! r'.
Proof.
  intros [Hb Hi] Hne E'. unfold opened.
  destruct (userConvHistories w !! u) as [r|] eqn:E; cbn [fst snd arrays set_arrays].
  - split; [|done]. intros ->. apply Hne. by eapply Hi.
  - pose proof (Hb _ _ E'). split; [lia|]. by rewrite lookup_app_l.
Qed.

(** The [try] block of the chat handler around the chain: the question entry
    is pushed first, the chain runs on the world that has it, and only a
    chain that returns is followed by the answer entry and the save. *)
Lemma chat_try_run (req : request) (b : jsobj) (w : world) :
  body req = Some b -> wf w ->
  inherited (property_key (ip req)) = false
    \/ is_Some (userConvHistories w !! property_key (ip req)) ->
  chat_try srv req w =
    let q := get_prop b "question" in
    let u := property_key (ip req) in
    let r := (opened w u).1 in
    let w0 := (opened w u).2 in
    let told := transcript w u ++ [human_entry q] in
    let w1 := set_arrays w0 (<[r := told]> (arrays w0)) in
    match chain srv {[ "question" := q;
                       "conv_history" := JStr (formatConvHistory told) ]} w1 with
    | (Ok resp, w2) =>
        (Ok {| status := 200; json := {[ "response" := JStr resp ]} |},
         set_histories
           (set_arrays w2 (<[r := told ++ [ai_entry resp]]> (arrays w2)))
           (<[u := r]> (userConvHistories w2)))
    | (Throw e, w2) => (Throw e, w2)
    end.
Proof.
  intros Hb Hwf Hu. cbv zeta.
  pose proof (opened_lookup w (property_key (ip req)) Hwf) as Hl.
  pose proof (lookup_lt_Some _ _ _ Hl) as Hlt.
  unfold chat_try, body_prop. rewrite Hb.
  unfold mbind at 1. unfold M_bind at 1. unfold mret at 1. unfold M_ret at 1.
  unfold mbind at 1. unfold M_bind at 1.
  rewrite (get_or_new_opened w _ Hu).
  unfold mbind at 1. unfold M_bind at 1.
  unfold push at 1. rewrite Hl.
  unfold mbind at 1. unfold M_bind at 1.
  unfold read. cbn [arrays set_arrays].
  rewrite list_lookup_insert_eq by done.
  unfold mbind at 1. unfold M_bind at 1.
  fold (human_entry (get_prop b "question")).
  match goal with |- context [chain srv ?i ?w1] =>
    pose proof (chain_frame i w1) as [Ha _];
    destruct (chain srv i w1) as [[resp|e] w2] end; [|reflexivity].
  cbn [snd arrays set_arrays] in Ha.
  unfold mbind, M_bind, push, save, mret, M_ret.
  rewrite Ha, list_lookup_insert_eq by done.
  cbn [arrays set_arrays userConvHistories set_histories trace].
  reflexivity.
Qed.

(** The two ways the chat handler leaves the store, for a caller whose key
    is not answered by the prototype.  Either way the question entry has
    been written to the array [convHistory] refers to. *)
Lemma chat_store_cases (req : request) (b : jsobj) (w w' : world) (rsp : response) :
  body req = Some b -> wf w ->
  inherited (property_key (ip req)) = false
    \/ is_Some (userConvHistories w !! property_key (ip req)) ->
  chat srv req w = (Ok rsp, w') ->
  let u := property_key (ip req) in
  let r := (opened w u).1 in
  let told := transcript w u ++ [human_entry (get_prop b "question")] in
  (exists resp,
      rsp = {| status := 200; json := {[ "response" := JStr resp ]} |} /\
      userConvHistories w' = <[u := r]> (userConvHistories w) /\
      arrays w' = <[r := told ++ [ai_entry resp]]> (arrays (opened w u).2))
  \/ (rsp = internal_server_error /\
      userConvHistories w' = userConvHistories w /\
      arrays w' = <[r := told]> (arrays (opened w u).2)).
Proof.
  intros Hb Hwf Hu Hrun. cbv zeta.
  unfold chat, try_catch in Hrun.
  rewrite (chat_try_run req b w Hb Hwf Hu) in Hrun. cbv zeta in Hrun.
  destruct (opened_frame w (property_key (ip req))) as [Hs _].
  match type of Hrun with context [chain srv ?i ?w1] =>
    pose proof (chain_frame i w1) as [Ha Hm];
    destruct (chain srv i w1) as [[resp|e] w2] end;
    cbn [snd arrays set_arrays userConvHistories] in Ha, Hm.
  - left. exists resp. inversion Hrun; subst; clear Hrun.
    cbn [arrays set_arrays userConvHistories set_histories].
    rewrite Ha, Hm, Hs, list_insert_insert_eq. done.
  - right. unfold on_error, log, mbind, M_bind, mret, M_ret in Hrun.
    inversion Hrun; subst; clear Hrun.
    cbn [arrays userConvHistories emit]. by rewrite Ha, Hm, Hs.
Qed.

Lemma transcript_written (w' : world) (u : string) (r : loc)
    (l : list string) (a : list (list string)) :
  userConvHistories w' !! u = Some r -> arrays w' = <[r := l]> a ->
  r < length a -> transcript w' u = l.
Proof.
  intros Hu Ha Hlt. unfold transcript.
  by rewrite Hu, Ha, list_lookup_insert_eq.
Qed.

Lemma transcript_others (w w' : world) (u u' : string) (l : list string) :
  wf w -> u' <> u ->
  userConvHistories w' !! u' = userConvHistories w !! u' ->
  arrays w' = <[(opened w u).1 := l]> (arrays (opened w u).2) ->
  transcript w' u' = transcript w u'.
Proof.
  intros Hwf Hne Hu Ha. unfold transcript. rewrite Hu, Ha.
  destruct (userConvHistories w !! u') as [r'|] eqn:E; [|done].
  destruct (opened_others w u u' r' Hwf Hne E) as [Hr Hl].
  by rewrite list_lookup_insert_ne, Hl.
Qed.

(** Without a body the destructuring throws and the pipeline is not entered. *)
Lemma chat_no_body (req : request) (w : world) :
  body req = None ->
  chat srv req w =
    (Ok internal_server_error,
     emit w (ConsoleError (TypeError cannot_destructure_question))).
Proof.
  intros Hb. unfold chat, try_catch, chat_try, body_prop. by rewrite Hb.
Qed.

(** A key the prototype answers, for which nothing is stored, stops at the
    first [push]. *)
Lemma chat_inherited_key (req : request) (b : jsobj) (w : world) :
  body req = Some b ->
  userConvHistories w !! property_key (ip req) = None ->
  inherited (property_key (ip req)) = true ->
  chat srv req w =
    (Ok internal_server_error,
     emit w (ConsoleError (TypeError "convHistory.push is not a function"))).
Proof.
  intros Hb Hs Hi.
  unfold chat, try_catch, chat_try, body_prop, get_or_new, mbind, M_bind,
    mret, M_ret.
  by rewrite Hb, Hs, Hi.
Qed.

(** A request that is answered 200 had a body and a key of its own. *)
Lemma chat_ok_entered (req : request) (w w' : world) (rsp : response) :
  chat srv req w = (Ok rsp, w') -> status rsp = 200 ->
  exists b, body req = Some b /\
    (inherited (property_key (ip req)) = false
     \/ is_Some (userConvHistories w !! property_key (ip req))).
Proof.
  intros Hrun Hst.
  destruct (body req) as [b|] eqn:Hb.
  - exists b. split; [done|].
    destruct (userConvHistories w !! property_key (ip req)) as [r|] eqn:Hs;
      [right; by eexists|].
    destruct (inherited (property_key (ip req))) eqn:Hi; [|by left].
    rewrite (chat_inherited_key req b w Hb Hs Hi) in Hrun.
    inversion Hrun; subst. done.
  - rewrite (chat_no_body req w Hb) in Hrun. inversion Hrun; subst. done.
Qed.

(** The chat handler always sends a response: its [catch] does not throw. *)
Lemma chat_responds (req : request) (w : world) :
  exists rsp, (chat srv req w).1 = Ok rsp.
Proof.
  unfold chat, try_catch.
  destruct (chat_try srv req w) as [[rsp|e] w1]; [by exists rsp|].
  by exists internal_server_error.
Qed.

(** Well-formedness is kept by every chat request. *)
Lemma chat_preserves_wf (req : request) (w : world) :
  wf w -> wf (chat srv req w).2.
Proof.
  intros Hwf.
  destruct (chat srv req w) as [[rsp|e] w'] eqn:Hrun; cbn [snd];
    [|destruct (chat_responds req w) as [? H]; rewrite Hrun in H; done].
  destruct (body req) as [b|] eqn:Hb;
    [|rewrite (chat_no_body req w Hb) in Hrun; by inversion Hrun; subst].
  destruct (userConvHistories w !! property_key (ip req)) as [r0|] eqn:Hs.
  - destruct (chat_store_cases req b w w' rsp Hb Hwf) as
      [(resp & _ & Hm & Ha)|(_ & Hm & Ha)]; [right; by eexists|done|..];
      unfold opened in Hm, Ha; rewrite ?Hs in Hm; rewrite Hs in Ha; cbn [fst snd] in Hm, Ha;
      destruct Hwf as [Hbd Hinj]; split.
    + intros u r. rewrite Hm, Ha, length_insert. intros [[_ <-]|[_ H]]%lookup_insert_Some; eauto.
    + rewrite Hm. rewrite insert_id by done. exact Hinj.
    + intros u r. rewrite Hm, Ha, length_insert. eauto.
    + rewrite Hm. exact Hinj.
  - destruct (inherited (property_key (ip req))) eqn:Hi;
      [rewrite (chat_inherited_key req b w Hb Hs Hi) in Hrun; by inversion Hrun; subst|].
    destruct (chat_store_cases req b w w' rsp Hb Hwf) as
      [(resp & _ & Hm & Ha)|(_ & Hm & Ha)]; [by left|done|..];
      unfold opened in Hm, Ha; rewrite ?Hs in Hm; rewrite Hs in Ha;
      cbn [fst snd arrays set_arrays] in Hm, Ha;
      destruct Hwf as [Hbd Hinj]; split.
    + intros u r. rewrite Hm, Ha, length_insert, length_app. cbn [length].
      intros [[_ <-]|[_ H]]%lookup_insert_Some; [lia|]. apply Hbd in H. lia.
    + intros u1 u2 r. rewrite Hm.
      intros [[<- <-]|[Hn1 H1]]%lookup_insert_Some [[<- E]|[Hn2 H2]]%lookup_insert_Some;
        try done; try (by eapply Hinj).
      * apply Hbd in H2. lia.
      * apply Hbd in H1. lia.
    + intros u r. rewrite Hm, Ha, length_insert, length_app. cbn [length].
      intros H. apply Hbd in H. lia.
    + rewrite Hm. exact Hinj.
Qed.

(** The chat handler call by call, for a request that enters the pipeline:
    what it adds to the trace and what it answers. *)
Lemma chat_run (req : request) (b : jsobj) (w : world) :
  body req = Some b -> wf w ->
  inherited (property_key (ip req)) = false
    \/ is_Some (userConvHistories w !! property_key (ip req)) ->
  let q := get_prop b "question" in
  let h := formatConvHistory
             (transcript w (property_key (ip req)) ++ [human_entry q]) in
  let p1 := standalone_prompt h (ToString q) in
  match llm srv (trace w) p1 with
  | Throw e =>
      (chat srv req w).1 = Ok internal_server_error /\
      trace (chat srv req w).2 = trace w ++ [LlmInvoke p1; ConsoleError e]
  | Ok sq =>
      match retriever srv (trace w ++ [LlmInvoke p1]) sq with
      | Throw e =>
          (chat srv req w).1 = Ok internal_server_error /\
          trace (chat srv req w).2 =
            trace w ++ [LlmInvoke p1; RetrieverInvoke sq; ConsoleError e]
      | Ok docs =>
          let p2 := answer_prompt (separated (nl +:+ nl) (map pageContent docs))
                                  h (ToString q) in
          let called := [LlmInvoke p1; RetrieverInvoke sq; ConsoleLog docs] in
          match llm srv (trace w ++ called) p2 with
          | Throw e =>
              (chat srv req w).1 = Ok internal_server_error /\
              trace (chat srv req w).2 =
                trace w ++ called ++ [LlmInvoke p2; ConsoleError e]
          | Ok resp =>
              (chat srv req w).1 =
                Ok {| status := 200; json := {[ "response" := JStr resp ]} |} /\
              trace (chat srv req w).2 = trace w ++ called ++ [LlmInvoke p2]
          end
      end
  end.
Proof.
  intros Hb Hwf Hu. cbv zeta.
  destruct (opened_frame w (property_key (ip req))) as [_ Ht].
  unfold chat, try_catch.
  rewrite (chat_try_run req b w Hb Hwf Hu). cbv zeta.
  rewrite (chain_run _
             (formatConvHistory (transcript w (property_key (ip req)) ++
                                 [human_entry (get_prop b "question")]))
             (get_prop b "question")) by reflexivity.
  cbv zeta. cbn [trace set_arrays emit]. rewrite Ht.
  unfold on_error, log, mbind, M_bind, mret, M_ret.
  destruct (llm srv (trace w) _) as [sq|e];
    [|cbn [fst snd trace emit set_arrays]; by rewrite Ht, <- ?app_assoc].
  destruct (retriever srv _ sq) as [docs|e];
    [|cbn [fst snd trace emit set_arrays]; by rewrite Ht, <- ?app_assoc].
  rewrite <- !app_assoc. cbn [app].
  destruct (llm srv _ _) as [resp|e];
    cbn [fst snd trace emit set_histories set_arrays];
    by rewrite Ht, <- ?app_assoc.
Qed.

(** The ingestion handler call by call. *)
Lemma load_documents_run (req : request) (b : jsobj) (w : world) :
  body req = Some b ->
  let url := get_prop b "url" in
  let crawl := LoaderLoad url loader_options in
  match loader_load srv (trace w) url loader_options with
  | Throw e =>
      load_documents srv req w =
        (Ok internal_server_error,
         {| userConvHistories := userConvHistories w; arrays := arrays w;
            trace := trace w ++ [crawl; ConsoleError e] |})
  | Ok docs =>
      let split := SplitterCreateDocuments [JSON_stringify srv docs] in
      match splitter_createDocuments srv (trace w ++ [crawl])
              [JSON_stringify srv docs] with
      | Throw e =>
          load_documents srv req w =
            (Ok internal_server_error,
             {| userConvHistories := userConvHistories w; arrays := arrays w;
                trace := trace w ++ [crawl; split; ConsoleError e] |})
      | Ok output =>
          let store := VectorStoreFromDocuments output "documents" in
          match fromDocuments srv (trace w ++ [crawl; split]) output "documents" with
          | Throw e =>
              load_documents srv req w =
                (Ok internal_server_error,
                 {| userConvHistories := userConvHistories w; arrays := arrays w;
                    trace := trace w ++ [crawl; split; store; ConsoleError e] |})
          | Ok _ =>
              load_documents srv req w =
                (Ok {| status := 200; json := {[ "success" := JBool true ]} |},
                 {| userConvHistories := userConvHistories w; arrays := arrays w;
                    trace := trace w ++ [crawl; split; store] |})
          end
      end
  end.
Proof.
  intros Hb. cbv zeta.
  unfold load_documents, try_catch, load_documents_try, body_prop, call,
    on_error, log, mbind, M_bind, mret, M_ret, emit.
  rewrite Hb. cbn [trace userConvHistories arrays].
  destruct (loader_load srv _ _ _) as [docs|e];
    [|cbn [trace userConvHistories arrays]; by rewrite <- ?app_assoc].
  destruct (splitter_createDocuments srv _ _) as [output|e];
    [|cbn [trace userConvHistories arrays]; by rewrite <- ?app_assoc].
  cbn [trace userConvHistories arrays]. rewrite <- !app_assoc. cbn [app].
  destruct (fromDocuments srv _ _ _) as [[]|e];
    cbn [trace userConvHistories arrays]; by rewrite <- ?app_assoc.
Qed.

Lemma load_documents_no_body (req : request) (w : world) :
  body req = None ->
  load_documents srv req w =
    (Ok internal_server_error,
     emit w (ConsoleError (TypeError cannot_read_url))).
Proof.
  intros Hb.
  unfold load_documents, try_catch, load_documents_try, body_prop. by rewrite Hb.
Qed.

End Runs.

(** The ingestion handler does not touch the store. *)
Lemma load_documents_preserves_wf (srv : Services) (req : request) (w : world) :
  wf w -> wf (load_documents srv req w).2.
Proof.
  intros Hwf.
  destruct (body req) as [b|] eqn:Hb;
    [|by rewrite (load_documents_no_body srv req w Hb)].
  pose proof (load_documents_run srv req b w Hb) as H. cbv zeta in H.
  destruct (loader_load srv _ _ _) as [docs|e];
    [destruct (splitter_createDocuments srv _ _) as [output|e];
     [destruct (fromDocuments srv _ _ _) as [[]|e]|]|];
    by rewrite H.
Qed.

Lemma wf_initial : wf initial_world.
Proof. split; intros *; cbn [userConvHistories initial_world]; by rewrite lookup_empty. Qed.

(** Every world the server can be in is well formed. *)
Lemma reachable_wf (srv : Services) (w : world) : reachable srv w -> wf w.
Proof.
  induction 1 as [|req w _ IH|req w _ IH].
  - exact wf_initial.
  - by apply chat_preserves_wf.
  - by apply load_documents_preserves_wf.
Qed.

Lemma wf_after_one_exchange : wf after_one_exchange.
Proof. apply (reachable_wf stub_services). apply reachable_chat, reachable_initial. Qed.

Lemma new_events_app (w w' : world) (evs : list event) :
  trace w' = trace w ++ evs -> new_events w w' = evs.
Proof. intros H. unfold new_events. rewrite H. by rewrite drop_app_length. Qed.

(** What an answered request leaves in its caller's transcript. *)
Lemma conversation_store_cases_ok
    (srv : Services) (req : request) (w : world) (rsp : response) (b : jsobj) :
  wf w -> body req = Some b -> (chat srv req w).1 = Ok rsp -> status rsp = 200 ->
  exists resp,
    json rsp = {[ "response" := JStr resp ]} /\
    transcript (chat srv req w).2 (property_key (ip req)) =
      (transcript w (property_key (ip req)) ++ [human_entry (get_prop b "question")])
        ++ [ai_entry resp].
Proof.
  intros Hwf Hb Hrun Hst.
  destruct (chat srv req w) as [res w'] eqn:E. cbn [fst snd] in *. subst res.
  destruct (chat_ok_entered srv req w w' rsp E Hst) as (b' & Hb' & Hu).
  rewrite Hb in Hb'. injection Hb' as <-.
  destruct (chat_store_cases srv req b w w' rsp Hb Hwf Hu E)
    as [(resp & -> & Hm & Ha)|(-> & _)]; [|done].
  pose proof (lookup_lt_Some _ _ _ (opened_lookup w (property_key (ip req)) Hwf)) as Hlt.
  assert (userConvHistories w' !! property_key (ip req) =
          Some (opened w (property_key (ip req))).1) as Hl
    by (rewrite Hm; apply lookup_insert_eq).
  exists resp. split; [done|].
  exact (transcript_written w' _ _ _ _ Hl Ha Hlt).
Qed.

(** A collaborator that always answers has not thrown. *)
Ltac answered :=
  match goal with
  | Hans : forall t p, exists s, ?f t p = Ok s, E : ?f ?t0 ?p0 = Throw _ |- _ =>
      destruct (Hans t0 p0) as [? Hok]; rewrite Hok in E; discriminate E
  end.

(** * The claims *)

(** C7.  Whatever documents the retriever returns for the rewritten question,
    the retrieval stage's context is their texts in the order returned, with
    one blank line (two line feeds) between consecutive texts and nothing
    removed; the retriever is asked the rewritten question. *)
Theorem retrieval_context_is_blank_line_join
    (srv : Services) (prev : rewritten) (w : world) (docs : list Document) :
  retriever srv (trace w) (standalone_question prev) = Ok docs ->
  (retrieverChain srv prev w).1 =
    Ok (separated (nl +:+ nl) (map pageContent docs)) /\
  new_events w (retrieverChain srv prev w).2 =
    [RetrieverInvoke (standalone_question prev); ConsoleLog docs].
Proof.
  intros Hr.
  unfold retrieverChain, invoke_retriever, combineDocuments, call, log,
    mbind, M_bind, mret, M_ret.
  rewrite Hr. cbn [fst snd]. split.
  - by rewrite Array_join_separated.
  - apply new_events_app. cbn [trace emit]. by rewrite <- app_assoc.
Qed.

Lemma retrieval_context_is_blank_line_join_witness :
  (retrieverChain stub_services
     {| standalone_question := "What does Scrimba offer?"; original_input := ∅ |}
     initial_world).1 =
    Ok (separated (nl +:+ nl)
          (map pageContent
             [doc "Scrimba offers courses on web development.";
              doc "Scrimba is free to try."])) /\
  new_events initial_world
    (retrieverChain stub_services
       {| standalone_question := "What does Scrimba offer?"; original_input := ∅ |}
       initial_world).2 =
    [RetrieverInvoke "What does Scrimba offer?";
     ConsoleLog [doc "Scrimba offers courses on web development.";
                 doc "Scrimba is free to try."]].
Proof.
  apply (retrieval_context_is_blank_line_join stub_services
           {| standalone_question := "What does Scrimba offer?"; original_input := ∅ |}
           initial_world).
  reflexivity.
Defined.

(** The primitive behind the store: pushing onto a stored array and reading
    the transcript back gives the earlier entries, in order, then the entry. *)
Lemma push_then_transcript (w : world) (u : string) (r : loc) (e : string) :
  wf w -> userConvHistories w !! u = Some r ->
  exists w', push (ArrayRef r) e w = (Ok tt, w') /\
             transcript w' u = transcript w u ++ [e].
Proof.
  intros [Hb _] Hu. unfold push, transcript. rewrite Hu.
  destruct (lookup_lt_is_Some_2 (arrays w) r (Hb _ _ Hu)) as [l Hl].
  rewrite Hl. eexists; split; [reflexivity|].
  cbn [userConvHistories arrays set_arrays]. rewrite Hu.
  rewrite list_lookup_insert_eq by (by eapply lookup_lt_Some). done.
Qed.

(** C1.  When a request of a caller whose transcript is already stored fails,
    the response carries no answer and no answer entry is written, but the
    question entry is: it was pushed onto the stored array itself before the
    pipeline ran, and the stored transcript ends with it. *)
Theorem failed_chat_keeps_question_entry
    (srv : Services) (req : request) (w : world) (b : jsobj) (r : loc)
    (rsp : response) :
  wf w -> body req = Some b ->
  userConvHistories w !! property_key (ip req) = Some r ->
  (chat srv req w).1 = Ok rsp -> status rsp = 500 ->
  json rsp !! "response" = None /\
  transcript (chat srv req w).2 (property_key (ip req)) =
    transcript w (property_key (ip req)) ++ [human_entry (get_prop b "question")].
Proof.
  intros Hwf Hb Hs Hrun Hst.
  destruct (chat srv req w) as [res w'] eqn:E. cbn [fst snd] in *. subst res.
  assert (inherited (property_key (ip req)) = false
          \/ is_Some (userConvHistories w !! property_key (ip req))) as Hu
    by (right; by eexists).
  destruct (chat_store_cases srv req b w w' rsp Hb Hwf Hu E)
    as [(resp & -> & _)|(-> & Hm & Ha)]; [done|].
  split; [reflexivity|].
  pose proof (lookup_lt_Some _ _ _ (opened_lookup w (property_key (ip req)) Hwf)) as Hlt.
  assert (userConvHistories w' !! property_key (ip req) =
          Some (opened w (property_key (ip req))).1) as Hl.
  { rewrite Hm. unfold opened. by rewrite Hs. }
  exact (transcript_written w' _ _ _ _ Hl Ha Hlt).
Qed.

Lemma failed_chat_keeps_question_entry_witness :
  json internal_server_error !! "response" = None /\
  transcript (chat down_services (ask "Is it free?") after_one_exchange).2 "::1" =
    ["Human: What does Scrimba offer?"; "AI: Courses."] ++ ["Human: Is it free?"].
Proof.
  exact (failed_chat_keeps_question_entry down_services (ask "Is it free?")
           after_one_exchange {[ "question" := JStr "Is it free?" ]} 0
           internal_server_error
           wf_after_one_exchange eq_refl eq_refl eq_refl eq_refl).
Defined.

(** The specification's sentence fails at that request: the stored transcript
    of the caller is not what it was. *)
Lemma failed_chat_changes_stored_transcript :
  ~ failure_leaves_transcript down_services (ask "Is it free?") after_one_exchange.
Proof.
  intros H. specialize (H internal_server_error).
  assert (transcript (chat down_services (ask "Is it free?") after_one_exchange).2 "::1"
          = ["Human: What does Scrimba offer?"; "AI: Courses."; "Human: Is it free?"])
    as E1 by (vm_compute; reflexivity).
  assert (transcript after_one_exchange "::1"
          = ["Human: What does Scrimba offer?"; "AI: Courses."])
    as E2 by (vm_compute; reflexivity).
  change (property_key (ip (ask "Is it free?"))) with "::1" in H.
  rewrite E1, E2 in H.
  discriminate H; vm_compute; reflexivity.
Qed.

(** X9.  For a caller with nothing stored the same failure leaves the store alone:
    the array the question was pushed onto was never saved. *)
Lemma failed_chat_of_new_caller_stores_nothing
    (srv : Services) (req : request) (w : world) (rsp : response) :
  wf w -> userConvHistories w !! property_key (ip req) = None ->
  (chat srv req w).1 = Ok rsp -> status rsp = 500 ->
  userConvHistories (chat srv req w).2 = userConvHistories w /\
  forall u, transcript (chat srv req w).2 u = transcript w u.
Proof.
  intros Hwf Hs Hrun Hst.
  destruct (chat srv req w) as [res w'] eqn:E. cbn [fst snd] in *. subst res.
  destruct (body req) as [b|] eqn:Hb;
    [|rewrite (chat_no_body srv req w Hb) in E; by inversion E; subst].
  destruct (inherited (property_key (ip req))) eqn:Hi;
    [rewrite (chat_inherited_key srv req b w Hb Hs Hi) in E; by inversion E; subst|].
  destruct (chat_store_cases srv req b w w' rsp Hb Hwf (or_introl Hi) E)
    as [(resp & -> & _)|(-> & Hm & Ha)]; [done|].
  split; [done|]. intros u.
  destruct (decide (u = property_key (ip req))) as [->|Hne].
  - unfold transcript. by rewrite Hm, Hs.
  - eapply (transcript_others w w' (property_key (ip req)) u); [done|done| |exact Ha].
    by rewrite Hm.
Qed.




(** C6.  When rewriting and retrieval have succeeded, the next call is the
    model call of the synthesis stage, and its prompt is the answer template
    formatted with [context] bound to the joined retrieved texts,
    [conv_history] to the formatted history and [question] to the question of
    the request body, not to the rewritten question; no further model call
    follows. *)
Theorem synthesis_prompt_binds_original_question
    (srv : Services) (req : request) (w : world) (b : jsobj)
    (sq : string) (docs : list Document) :
  wf w -> body req = Some b ->
  inherited (property_key (ip req)) = false
    \/ is_Some (userConvHistories w !! property_key (ip req)) ->
  let q := get_prop b "question" in
  let h := formatConvHistory
             (transcript w (property_key (ip req)) ++ [human_entry q]) in
  let p1 := standalone_prompt h (ToString q) in
  let context := separated (nl +:+ nl) (map pageContent docs) in
  llm srv (trace w) p1 = Ok sq ->
  retriever srv (trace w ++ [LlmInvoke p1]) sq = Ok docs ->
  exists p2 rest,
    PromptTemplate_format answerTemplate
      {[ "context" := JStr context; "question" := q; "conv_history" := JStr h ]}
      = Ok p2 /\
    p2 = answer_prompt context h (ToString q) /\
    new_events w (chat srv req w).2 =
      [LlmInvoke p1; RetrieverInvoke sq; ConsoleLog docs; LlmInvoke p2] ++ rest /\
    Forall (fun e => is_llm_invoke e = false) rest.
Proof.
  intros Hwf Hb Hu. cbv zeta. intros Hllm Hret.
  pose proof (chat_run srv req b w Hb Hwf Hu) as H. cbv zeta in H.
  rewrite Hllm, Hret in H.
  exists (answer_prompt (separated (nl +:+ nl) (map pageContent docs))
            (formatConvHistory
               (transcript w (property_key (ip req)) ++
                [human_entry (get_prop b "question")]))
            (ToString (get_prop b "question"))).
  destruct (llm srv (trace w ++ _) _) as [resp|e]; destruct H as [_ H];
    rewrite (new_events_app _ _ _ H); cbn [app];
    [exists [] | exists [ConsoleError e]];
    (split_and!;
     [ by erewrite format_answer by reflexivity
     | reflexivity | reflexivity | by repeat constructor ]).
Qed.

Lemma synthesis_prompt_binds_original_question_witness :
  let q := get_prop {[ "question" := JStr "Is it free?" ]} "question" in
  let h := formatConvHistory (transcript after_one_exchange "::1" ++ [human_entry q]) in
  let p1 := standalone_prompt h (ToString q) in
  let context :=
    separated (nl +:+ nl)
      (map pageContent [doc "Scrimba offers courses on web development.";
                        doc "Scrimba is free to try."]) in
  exists p2 rest,
    PromptTemplate_format answerTemplate
      {[ "context" := JStr context; "question" := q; "conv_history" := JStr h ]}
      = Ok p2 /\
    p2 = answer_prompt context h (ToString q) /\
    new_events after_one_exchange
      (chat stub_services (ask "Is it free?") after_one_exchange).2 =
      [LlmInvoke p1; RetrieverInvoke "Courses.";
       ConsoleLog [doc "Scrimba offers courses on web development.";
                   doc "Scrimba is free to try."];
       LlmInvoke p2] ++ rest /\
    Forall (fun e => is_llm_invoke e = false) rest.
Proof.
  exact (synthesis_prompt_binds_original_question stub_services
           (ask "Is it free?") after_one_exchange
           {[ "question" := JStr "Is it free?" ]} "Courses."
           [doc "Scrimba offers courses on web development.";
            doc "Scrimba is free to try."]
           wf_after_one_exchange eq_refl (or_introl eq_refl) eq_refl eq_refl).
Defined.

(** C9, as the specification has it, fails for the body [{}]: with
    collaborators that answer, the request is answered 200 after two model
    calls. *)
Lemma missing_question_is_not_rejected :
  ~ rejected_before_pipeline stub_services ask_nothing initial_world.
Proof.
  intros [H _]. vm_compute in H. discriminate H.
Qed.

(** C9, amended.  A body that is an object without a [question] is not
    checked: the question reads as undefined, its entry is
    [Human: undefined], and the pipeline is entered with it.  If the model and
    the retriever answer, the request is answered 200 and both entries are
    stored; it is answered otherwise only when one of them has thrown, the
    error being logged last. *)
Theorem missing_question_is_read_as_undefined
    (srv : Services) (req : request) (w : world) (b : jsobj) :
  wf w -> body req = Some b -> b !! "question" = None ->
  inherited (property_key (ip req)) = false
    \/ is_Some (userConvHistories w !! property_key (ip req)) ->
  let u := property_key (ip req) in
  let h := formatConvHistory (transcript w u ++ ["Human: undefined"]) in
  (exists rest,
      new_events w (chat srv req w).2 =
        LlmInvoke (standalone_prompt h "undefined") :: rest) /\
  (always_answer srv ->
     exists resp,
       (chat srv req w).1 =
         Ok {| status := 200; json := {[ "response" := JStr resp ]} |} /\
       transcript (chat srv req w).2 u =
         transcript w u ++ ["Human: undefined"; ai_entry resp]) /\
  (forall rsp, (chat srv req w).1 = Ok rsp -> status rsp <> 200 ->
     exists e,
       last (new_events w (chat srv req w).2) = Some (ConsoleError e) /\
       ((exists t p, llm srv t p = Throw e)
        \/ (exists t q, retriever srv t q = Throw e))).
Proof.
  intros Hwf Hb Hq Hu. cbv zeta.
  pose proof (chat_run srv req b w Hb Hwf Hu) as H. cbv zeta in H.
  assert (get_prop b "question" = JUndefined) as Eq
    by (unfold get_prop; by rewrite Hq).
  rewrite Eq in H. change (human_entry JUndefined) with "Human: undefined" in H.
  change (ToString JUndefined) with "undefined" in H.
  split_and!.
  - destruct (llm srv (trace w) _) as [sq|e];
      [destruct (retriever srv _ sq) as [docs|e];
       [destruct (llm srv _ _) as [resp|e]|]|];
      destruct H as [_ H]; rewrite (new_events_app _ _ _ H); by eexists.
  - intros [Hllm Hret].
    destruct (llm srv (trace w) _) as [sq|e] eqn:E1; [|by answered].
    destruct (retriever srv _ sq) as [docs|e] eqn:E2; [|by answered].
    destruct (llm srv (trace w ++ _) _) as [resp|e] eqn:E3; [|by answered].
    destruct H as [H _]. exists resp. split; [done|].
    destruct (conversation_store_cases_ok srv req w _ b Hwf Hb H eq_refl)
      as (resp' & Hj & Ht).
    cbn [json] in Hj. apply (f_equal (.!! "response")) in Hj.
    rewrite !lookup_singleton_eq in Hj. injection Hj as <-.
    rewrite Ht, Eq. by rewrite <- app_assoc.
  - intros rsp Hrun Hst.
    destruct (llm srv (trace w) _) as [sq|e] eqn:E1;
      [destruct (retriever srv _ sq) as [docs|e] eqn:E2;
       [destruct (llm srv (trace w ++ _) _) as [resp|e] eqn:E3|]|];
      destruct H as [H1 H2]; rewrite (new_events_app _ _ _ H2);
      rewrite H1 in Hrun; injection Hrun as <-; try done;
      exists e; (split; [reflexivity|]); eauto.
Qed.

Lemma missing_question_is_read_as_undefined_witness :
  let u := property_key (ip ask_nothing) in
  let h := formatConvHistory (transcript initial_world u ++ ["Human: undefined"]) in
  (exists rest,
      new_events initial_world (chat stub_services ask_nothing initial_world).2 =
        LlmInvoke (standalone_prompt h "undefined") :: rest) /\
  (always_answer stub_services ->
     exists resp,
       (chat stub_services ask_nothing initial_world).1 =
         Ok {| status := 200; json := {[ "response" := JStr resp ]} |} /\
       transcript (chat stub_services ask_nothing initial_world).2 u =
         transcript initial_world u ++ ["Human: undefined"; ai_entry resp]) /\
  (forall rsp, (chat stub_services ask_nothing initial_world).1 = Ok rsp ->
     status rsp <> 200 ->
     exists e,
       last (new_events initial_world
               (chat stub_services ask_nothing initial_world).2)
         = Some (ConsoleError e) /\
       ((exists t p, llm stub_services t p = Throw e)
        \/ (exists t q, retriever stub_services t q = Throw e))).
Proof.
  exact (missing_question_is_read_as_undefined stub_services ask_nothing
           initial_world ∅ wf_initial eq_refl eq_refl (or_introl eq_refl)).
Defined.

(** The events the ingestion handler adds, when the request has a body: the
    crawl comes first, with the options of lines 116-122, and no other crawl
    follows. *)
Lemma load_documents_events (srv : Services) (req : request) (w : world) (b : jsobj) :
  body req = Some b ->
  exists rest,
    new_events w (load_documents srv req w).2 =
      LoaderLoad (get_prop b "url") loader_options :: rest /\
    Forall (fun e => is_loader_load e = false) rest.
Proof.
  intros Hb.
  pose proof (load_documents_run srv req b w Hb) as H. cbv zeta in H.
  destruct (loader_load srv _ _ _) as [docs|e];
    [destruct (splitter_createDocuments srv _ _) as [output|e];
     [destruct (fromDocuments srv _ _ _) as [[]|e]|]|];
    rewrite H; cbn [snd]; unfold new_events; cbn [trace];
    rewrite drop_app_length; eexists; (split; [reflexivity|]);
    by repeat constructor.
Qed.

(** C3, as the specification has it, fails: the extractor the crawler is
    given was compiled with a wrap width. *)
Lemma normalizer_has_a_wrap_width :
  exists url opts,
    new_events initial_world
      (load_documents stub_services (load "https://scrimba.com") initial_world).2
      !! 0 = Some (LoaderLoad url opts) /\
    ~ no_wrap_width_imposed (extractor opts).
Proof.
  exists (JStr "https://scrimba.com"), loader_options. split.
  - vm_compute. reflexivity.
  - unfold no_wrap_width_imposed. vm_compute. discriminate.
Qed.

(** C3, amended.  For every ingestion request the text normaliser handed to
    the crawler is compiled with [wordwrap: 1000]: it wraps at a width of
    1000 characters, whatever the request and the documents are. *)
Theorem normalizer_wraps_at_1000
    (srv : Services) (req : request) (w : world) (url : jsval) (opts : LoaderOptions) :
  LoaderLoad url opts ∈ new_events w (load_documents srv req w).2 ->
  wordwrap (extractor opts) = WrapAt 1000 /\
  wrap_width (extractor opts) = Some 1000.
Proof.
  intros Hin.
  destruct (body req) as [b|] eqn:Hb.
  - destruct (load_documents_events srv req w b Hb) as (rest & Hev & Hrest).
    rewrite Hev in Hin. apply elem_of_cons in Hin as [Hin|Hin].
    + injection Hin as -> ->. by split.
    + rewrite Forall_forall in Hrest. apply Hrest in Hin. discriminate Hin.
  - rewrite (load_documents_no_body srv req w Hb) in Hin.
    unfold new_events in Hin. cbn [snd trace emit] in Hin.
    rewrite drop_app_length in Hin.
    apply elem_of_cons in Hin as [Hin|Hin]; [discriminate Hin|].
    by apply elem_of_nil in Hin.
Qed.

Lemma normalizer_wraps_at_1000_witness :
  wordwrap (extractor loader_options) = WrapAt 1000 /\
  wrap_width (extractor loader_options) = Some 1000.
Proof.
  apply (normalizer_wraps_at_1000 stub_services (load "https://scrimba.com")
           initial_world (JStr "https://scrimba.com") loader_options).
  vm_compute. left.
Defined.

(** C10.  Whatever the body of an ingestion request holds, the crawl is
    started on the body's [url] with the depth bound 1000, and it is the only
    crawl of the request. *)
Theorem crawl_depth_is_1000
    (srv : Services) (req : request) (w : world) (b : jsobj) :
  body req = Some b ->
  exists rest,
    new_events w (load_documents srv req w).2 =
      LoaderLoad (get_prop b "url")
        {| extractor := compiledConvert; maxDepth := 1000 |} :: rest /\
    Forall (fun e => is_loader_load e = false) rest.
Proof. apply load_documents_events. Qed.

Lemma crawl_depth_is_1000_witness :
  exists rest,
    new_events initial_world
      (load_documents stub_services
         {| body := Some {[ "url" := JStr "https://scrimba.com";
                            "maxDepth" := JStr "2" ]};
            ip := Some "::1" |}
         initial_world).2 =
      LoaderLoad (JStr "https://scrimba.com")
        {| extractor := compiledConvert; maxDepth := 1000 |} :: rest /\
    Forall (fun e => is_loader_load e = false) rest.
Proof.
  exact (crawl_depth_is_1000 stub_services
           {| body := Some {[ "url" := JStr "https://scrimba.com";
                              "maxDepth" := JStr "2" ]};
              ip := Some "::1" |}
           initial_world _ eq_refl).
Defined.

(** C5.  When the crawl returns a batch of documents, the chunker is called
    exactly once for the request, on a list of exactly one string: the JSON
    encoding of the whole batch. *)
Theorem chunker_input_is_one_blob
    (srv : Services) (req : request) (w : world) (b : jsobj) (docs : list Document) :
  body req = Some b ->
  loader_load srv (trace w) (get_prop b "url") loader_options = Ok docs ->
  filter (fun e => is_splitter_call e = true)
         (new_events w (load_documents srv req w).2) =
    [SplitterCreateDocuments [JSON_stringify srv docs]].
Proof.
  intros Hb Hl.
  pose proof (load_documents_run srv req b w Hb) as H. cbv zeta in H.
  rewrite Hl in H.
  destruct (splitter_createDocuments srv _ _) as [output|e];
    [destruct (fromDocuments srv _ _ _) as [[]|e]|];
    rewrite H; cbn [snd]; unfold new_events; cbn [trace];
    rewrite drop_app_length; reflexivity.
Qed.

Lemma chunker_input_is_one_blob_witness :
  filter (fun e => is_splitter_call e = true)
         (new_events initial_world
            (load_documents stub_services (load "https://scrimba.com") initial_world).2) =
    [SplitterCreateDocuments
       [JSON_stringify stub_services
          [doc "Scrimba offers courses on web development."]]].
Proof.
  exact (chunker_input_is_one_blob stub_services (load "https://scrimba.com")
           initial_world {[ "url" := JStr "https://scrimba.com" ]}
           [doc "Scrimba offers courses on web development."] eq_refl eq_refl).
Defined.

(** C4, as the specification has it, fails: an ingestion of a page with text
    succeeds and its result carries no chunk count. *)
Lemma ingest_result_has_no_chunk_count :
  exists rsp,
    (load_documents stub_services (load "https://scrimba.com") initial_world).1
      = Ok rsp /\
    status rsp = 200 /\ ~ reports_chunk_count rsp.
Proof.
  exists {| status := 200; json := {[ "success" := JBool true ]} |}.
  split_and!; [vm_compute; reflexivity | reflexivity |].
  unfold reports_chunk_count. cbn [json].
  rewrite lookup_singleton_ne by done. by intros [? ?].
Qed.

(** C4, amended.  Every ingestion that succeeds is answered 200 with the body
    [{ success: true }] and nothing else: no chunk count is reported,
    whatever the page holds.  The chunks handed to the vector store are the
    ones the chunker returned for the blob. *)
Theorem ingest_reports_success_only
    (srv : Services) (req : request) (w : world) (rsp : response) :
  (load_documents srv req w).1 = Ok rsp -> status rsp = 200 ->
  json rsp = {[ "success" := JBool true ]} /\
  ~ reports_chunk_count rsp /\
  exists b docs output,
    body req = Some b /\
    loader_load srv (trace w) (get_prop b "url") loader_options = Ok docs /\
    splitter_createDocuments srv
      (trace w ++ [LoaderLoad (get_prop b "url") loader_options])
      [JSON_stringify srv docs] = Ok output /\
    last (new_events w (load_documents srv req w).2) =
      Some (VectorStoreFromDocuments output "documents").
Proof.
  intros Hrun Hst.
  destruct (body req) as [b|] eqn:Hb;
    [|rewrite (load_documents_no_body srv req w Hb) in Hrun;
      injection Hrun as <-; done].
  pose proof (load_documents_run srv req b w Hb) as H. cbv zeta in H.
  destruct (loader_load srv _ _ _) as [docs|e] eqn:El;
    [destruct (splitter_createDocuments srv _ _) as [output|e] eqn:Es;
     [destruct (fromDocuments srv _ _ _) as [[]|e]|]|];
    rewrite H in Hrun |- *; injection Hrun as <-; try done.
  split_and!; [reflexivity| |].
  - unfold reports_chunk_count. cbn [json].
    rewrite lookup_singleton_ne by done. by intros [? ?].
  - exists b, docs, output. split_and!; [done|done|done|].
    cbn [snd]. unfold new_events. cbn [trace]. by rewrite drop_app_length.
Qed.

Lemma ingest_reports_success_only_witness :
  json {| status := 200; json := {[ "success" := JBool true ]} |} =
    {[ "success" := JBool true ]} /\
  ~ reports_chunk_count {| status := 200; json := {[ "success" := JBool true ]} |} /\
  exists b docs output,
    body (load "https://scrimba.com") = Some b /\
    loader_load stub_services (trace initial_world) (get_prop b "url")
      loader_options = Ok docs /\
    splitter_createDocuments stub_services
      (trace initial_world ++ [LoaderLoad (get_prop b "url") loader_options])
      [JSON_stringify stub_services docs] = Ok output /\
    last (new_events initial_world
            (load_documents stub_services (load "https://scrimba.com") initial_world).2) =
      Some (VectorStoreFromDocuments output "documents").
Proof.
  exact (ingest_reports_success_only stub_services (load "https://scrimba.com")
           initial_world
           {| status := 200; json := {[ "success" := JBool true ]} |}
           eq_refl eq_refl).
Defined.

(** * Further properties of the code *)

(** ** Joining *)

Lemma each_after_app (sep : string) (l l' : list string) :
  each_after sep (l ++ l') = each_after sep l +:+ each_after sep l'.
Proof.
  induction l as [|x l IH]; [reflexivity|].
  cbn [app each_after]. by rewrite IH, !append_assoc.
Qed.

Lemma separated_app (sep : string) (x y : string) (l l' : list string) :
  separated sep ((x :: l) ++ y :: l') =
  separated sep (x :: l) +:+ sep +:+ separated sep (y :: l').
Proof.
  change ((x :: l) ++ y :: l') with (x :: (l ++ y :: l')).
  rewrite !separated_cons, each_after_app. cbn [each_after].
  by rewrite !append_assoc.
Qed.

(** X1.  [formatConvHistory]: a history of no message is the empty string, a
    history of one message is the message, and each further message adds a
    line feed and the message; no line feed is put at the end. *)
Theorem formatConvHistory_snoc (messages : list string) (entry : string) :
  formatConvHistory [] = EmptyString /\
  formatConvHistory (messages ++ [entry]) =
    match messages with
    | [] => entry
    | _ :: _ => formatConvHistory messages +:+ nl +:+ entry
    end.
Proof.
  split; [reflexivity|].
  unfold formatConvHistory. rewrite !Array_join_separated.
  destruct messages as [|m messages]; [reflexivity|].
  by rewrite separated_app.
Qed.

(** X2.  [combineDocuments] on two batches one after the other: the context of the
    whole is the context of the first, a blank line, and the context of the
    second, when neither is empty. *)
Theorem combineDocuments_app (ds1 ds2 : list Document) (w : world) :
  ds1 <> [] -> ds2 <> [] ->
  exists c1 c2,
    (combineDocuments ds1 w).1 = Ok c1 /\
    (combineDocuments ds2 w).1 = Ok c2 /\
    (combineDocuments (ds1 ++ ds2) w).1 = Ok (c1 +:+ (nl +:+ nl) +:+ c2).
Proof.
  intros H1 H2.
  destruct ds1 as [|d1 ds1]; [done|]. destruct ds2 as [|d2 ds2]; [done|].
  unfold combineDocuments, log, mbind, M_bind, mret, M_ret. cbn [fst].
  do 2 eexists. split_and!; [reflexivity|reflexivity|].
  rewrite !Array_join_separated, map_app. cbn [map].
  by rewrite separated_app.
Qed.

Lemma combineDocuments_app_witness :
  exists c1 c2,
    (combineDocuments [doc "A"; doc "B"] initial_world).1 = Ok c1 /\
    (combineDocuments [doc "C"] initial_world).1 = Ok c2 /\
    (combineDocuments ([doc "A"; doc "B"] ++ [doc "C"]) initial_world).1
      = Ok (c1 +:+ (nl +:+ nl) +:+ c2).
Proof.
  apply (combineDocuments_app [doc "A"; doc "B"] [doc "C"] initial_world);
    discriminate.
Defined.

(** ** What a chat request does to the store *)

(** Every chat request, whatever its outcome: stored keys keep their arrays,
    the transcripts of the other callers are as they were, and for the caller
    the request was not entered or failed for a new caller (nothing changed),
    failed for a returning caller (the question entry was added), or was
    answered (both entries were added and the array saved). *)
Lemma chat_effect (srv : Services) (req : request) (w : world) :
  wf w ->
  let u := property_key (ip req) in
  (forall u' r', userConvHistories w !! u' = Some r' ->
                 userConvHistories (chat srv req w).2 !! u' = Some r') /\
  (forall u', u' <> u ->
              transcript (chat srv req w).2 u' = transcript w u') /\
  (((chat srv req w).1 = Ok internal_server_error /\
    userConvHistories (chat srv req w).2 = userConvHistories w /\
    transcript (chat srv req w).2 u = transcript w u)
   \/ ((chat srv req w).1 = Ok internal_server_error /\
       userConvHistories (chat srv req w).2 = userConvHistories w /\
       exists b, body req = Some b /\
         is_Some (userConvHistories w !! u) /\
         transcript (chat srv req w).2 u =
           transcript w u ++ [human_entry (get_prop b "question")])
   \/ (exists b resp,
         body req = Some b /\
         (chat srv req w).1 =
           Ok {| status := 200; json := {[ "response" := JStr resp ]} |} /\
         userConvHistories (chat srv req w).2 =
           <[u := (opened w u).1]> (userConvHistories w) /\
         transcript (chat srv req w).2 u =
           transcript w u ++ [human_entry (get_prop b "question"); ai_entry resp])).
Proof.
  intros Hwf. cbv zeta.
  destruct (body req) as [b|] eqn:Hb;
    [|rewrite (chat_no_body srv req w Hb); cbn [fst snd];
      split_and!; [done|done|by left]].
  destruct (userConvHistories w !! property_key (ip req)) as [r0|] eqn:Hs;
    [|destruct (inherited (property_key (ip req))) eqn:Hi;
      [rewrite (chat_inherited_key srv req b w Hb Hs Hi); cbn [fst snd];
       split_and!; [done|done|by left]|]].
  - (* a returning caller *)
    assert (inherited (property_key (ip req)) = false
            \/ is_Some (userConvHistories w !! property_key (ip req))) as Hu
      by (right; rewrite Hs; by eexists).
    destruct (chat srv req w) as [[rsp|e] w'] eqn:E;
      [|destruct (chat_responds srv req w) as [? H]; rewrite E in H; done].
    cbn [fst snd].
    pose proof (lookup_lt_Some _ _ _ (opened_lookup w (property_key (ip req)) Hwf)) as Hlt.
    assert ((opened w (property_key (ip req))).1 = r0) as Hr
      by (unfold opened; by rewrite Hs).
    destruct (chat_store_cases srv req b w w' rsp Hb Hwf Hu E)
      as [(resp & -> & Hm & Ha)|(-> & Hm & Ha)]; split_and!.
    + intros u' r' H'. rewrite Hm.
      destruct (decide (u' = property_key (ip req))) as [->|Hne].
      * rewrite lookup_insert_eq, Hr. congruence.
      * by rewrite lookup_insert_ne.
    + intros u' Hne.
      eapply (transcript_others w w' (property_key (ip req)) u'); [done|done| |exact Ha].
      rewrite Hm. by rewrite lookup_insert_ne.
    + right; right. exists b, resp. split_and!; [done|done|done|].
      assert (userConvHistories w' !! property_key (ip req) =
              Some (opened w (property_key (ip req))).1) as Hl
        by (rewrite Hm; apply lookup_insert_eq).
      rewrite (transcript_written w' _ _ _ _ Hl Ha Hlt). by rewrite <- app_assoc.
    + intros u' r' H'. by rewrite Hm.
    + intros u' Hne.
      eapply (transcript_others w w' (property_key (ip req)) u'); [done|done| |exact Ha].
      by rewrite Hm.
    + right; left. split_and!; [done|done|]. exists b. split_and!; [done|by eexists|].
      assert (userConvHistories w' !! property_key (ip req) =
              Some (opened w (property_key (ip req))).1) as Hl
        by (rewrite Hm, Hr; done).
      exact (transcript_written w' _ _ _ _ Hl Ha Hlt).
  - (* a new caller *)
    destruct (chat srv req w) as [[rsp|e] w'] eqn:E;
      [|destruct (chat_responds srv req w) as [? H]; rewrite E in H; done].
    cbn [fst snd].
    pose proof (lookup_lt_Some _ _ _ (opened_lookup w (property_key (ip req)) Hwf)) as Hlt.
    destruct (chat_store_cases srv req b w w' rsp Hb Hwf (or_introl Hi) E)
      as [(resp & -> & Hm & Ha)|(-> & Hm & Ha)]; split_and!.
    + intros u' r' H'. rewrite Hm.
      destruct (decide (u' = property_key (ip req))) as [->|Hne]; [congruence|].
      by rewrite lookup_insert_ne.
    + intros u' Hne.
      eapply (transcript_others w w' (property_key (ip req)) u'); [done|done| |exact Ha].
      rewrite Hm. by rewrite lookup_insert_ne.
    + right; right. exists b, resp. split_and!; [done|done|done|].
      assert (userConvHistories w' !! property_key (ip req) =
              Some (opened w (property_key (ip req))).1) as Hl
        by (rewrite Hm; apply lookup_insert_eq).
      rewrite (transcript_written w' _ _ _ _ Hl Ha Hlt). by rewrite <- app_assoc.
    + intros u' r' H'. by rewrite Hm.
    + intros u' Hne.
      eapply (transcript_others w w' (property_key (ip req)) u'); [done|done| |exact Ha].
      by rewrite Hm.
    + left. split_and!; [done|done|]. unfold transcript. by rewrite Hm, Hs.
Qed.

Lemma reachable_after_two_callers : reachable stub_services after_two_callers.
Proof. apply reachable_chat, reachable_chat, reachable_initial. Qed.

Lemma wf_after_two_callers : wf after_two_callers.
Proof. exact (reachable_wf _ _ reachable_after_two_callers). Qed.

(** X7.  A chat request, answered or not, leaves the transcript of every other
    caller as it was. *)
Theorem chat_leaves_other_callers
    (srv : Services) (req : request) (w : world) (u' : string) :
  wf w -> u' <> property_key (ip req) ->
  transcript (chat srv req w).2 u' = transcript w u'.
Proof.
  intros Hwf Hne. by apply (chat_effect srv req w Hwf).
Qed.

Lemma chat_leaves_other_callers_witness :
  transcript (chat down_services (ask "Is it free?") after_two_callers).2 "10.0.0.7"
  = transcript after_two_callers "10.0.0.7".
Proof.
  apply (chat_leaves_other_callers down_services (ask "Is it free?")
           after_two_callers "10.0.0.7").
  - exact wf_after_two_callers.
  - discriminate.
Defined.

Lemma failed_chat_of_new_caller_stores_nothing_witness :
  userConvHistories (chat down_services (ask_from "10.0.0.9" "Hello") after_one_exchange).2
    = userConvHistories after_one_exchange /\
  forall u, transcript (chat down_services (ask_from "10.0.0.9" "Hello") after_one_exchange).2 u
            = transcript after_one_exchange u.
Proof.
  exact (failed_chat_of_new_caller_stores_nothing down_services
           (ask_from "10.0.0.9" "Hello") after_one_exchange internal_server_error
           wf_after_one_exchange eq_refl eq_refl eq_refl).
Defined.

(** ** Invariants of the store *)

Lemma load_documents_frame (srv : Services) (req : request) (w : world) :
  userConvHistories (load_documents srv req w).2 = userConvHistories w /\
  arrays (load_documents srv req w).2 = arrays w.
Proof.
  destruct (body req) as [b|] eqn:Hb;
    [|by rewrite (load_documents_no_body srv req w Hb)].
  pose proof (load_documents_run srv req b w Hb) as H. cbv zeta in H.
  destruct (loader_load srv _ _ _) as [docs|e];
    [destruct (splitter_createDocuments srv _ _) as [output|e];
     [destruct (fromDocuments srv _ _ _) as [[]|e]|]|];
    by rewrite H.
Qed.

(** X10.  In every world the server can be in, no two callers share an array, and
    every stored key refers to an array that exists: what one caller's
    requests push can only show in that caller's transcript. *)
Theorem callers_never_share_an_array (srv : Services) (w : world) :
  reachable srv w ->
  (forall u1 u2 r, userConvHistories w !! u1 = Some r ->
                   userConvHistories w !! u2 = Some r -> u1 = u2) /\
  (forall u r, userConvHistories w !! u = Some r -> is_Some (arrays w !! r)).
Proof.
  intros Hr. destruct (reachable_wf srv w Hr) as [Hb Hi]. split; [exact Hi|].
  intros u r Hu. apply lookup_lt_is_Some_2. by eapply Hb.
Qed.

Lemma callers_never_share_an_array_witness :
  (forall u1 u2 r, userConvHistories after_two_callers !! u1 = Some r ->
                   userConvHistories after_two_callers !! u2 = Some r -> u1 = u2) /\
  (forall u r, userConvHistories after_two_callers !! u = Some r ->
               is_Some (arrays after_two_callers !! r)).
Proof.
  exact (callers_never_share_an_array stub_services after_two_callers
           (reachable_chat _ _ _ (reachable_chat _ _ _ (reachable_initial _)))).
Defined.

Lemma human_entry_is_question (q : jsval) : is_question_entry (human_entry q) = true.
Proof. by vm_compute. Qed.

Lemma human_entry_is_entry (q : jsval) : is_entry (human_entry q) = true.
Proof. by vm_compute. Qed.

Lemma ai_entry_is_entry (resp : string) : is_entry (ai_entry resp) = true.
Proof. by vm_compute. Qed.

Lemma well_shaped_app (l k : list string) :
  well_shaped l = true -> forallb is_entry k = true -> well_shaped (l ++ k) = true.
Proof.
  destruct l as [|e l]; [done|]. cbn [well_shaped app].
  intros [He Hl]%andb_prop Hk.
  rewrite He. cbn [andb]. change (e :: l ++ k) with ((e :: l) ++ k).
  rewrite forallb_app. by rewrite Hl, Hk.
Qed.

(** X11.  In every world the server can be in, a stored transcript is never empty,
    starts with a question entry, and holds nothing but question and answer
    entries. *)
Theorem stored_transcripts_are_well_shaped
    (srv : Services) (w : world) (u : string) (r : loc) :
  reachable srv w -> userConvHistories w !! u = Some r ->
  well_shaped (transcript w u) = true.
Proof.
  intros Hr. revert u r.
  induction Hr as [|req w Hr IH|req w Hr IH]; intros u r Hu.
  - cbn [userConvHistories initial_world] in Hu. by rewrite lookup_empty in Hu.
  - pose proof (reachable_wf srv w Hr) as Hwf.
    destruct (chat_effect srv req w Hwf) as (_ & Ho & Hc).
    destruct (decide (u = property_key (ip req))) as [->|Hne].
    + destruct Hc as [(_ & Hm & ->)|[(_ & Hm & b & _ & [r0 Hs] & ->)
                                    |(b & resp & _ & _ & Hm & ->)]].
      * rewrite Hm in Hu. by eapply IH.
      * apply well_shaped_app; [by eapply IH|].
        cbn [forallb]. by rewrite human_entry_is_entry.
      * destruct (userConvHistories w !! property_key (ip req)) as [r0|] eqn:Hs.
        -- apply well_shaped_app; [by eapply IH|].
           cbn [forallb]. by rewrite human_entry_is_entry, ai_entry_is_entry.
        -- unfold transcript at 1. rewrite Hs. cbn [app well_shaped forallb].
           by rewrite human_entry_is_question, human_entry_is_entry, ai_entry_is_entry.
    + rewrite (Ho u Hne).
      assert (userConvHistories w !! u = Some r) as Hu'.
      { destruct Hc as [(_ & Hm & _)|[(_ & Hm & _)|(b & resp & _ & _ & Hm & _)]];
          rewrite Hm in Hu; [done|done|]. by rewrite lookup_insert_ne in Hu. }
      by eapply IH.
  - destruct (load_documents_frame srv req w) as [Hm Ha].
    rewrite Hm in Hu. unfold transcript. rewrite Hm, Ha.
    by apply (IH u r).
Qed.

Lemma stored_transcripts_are_well_shaped_witness :
  well_shaped (transcript after_two_callers "10.0.0.7") = true.
Proof.
  exact (stored_transcripts_are_well_shaped stub_services after_two_callers
           "10.0.0.7" 1
           (reachable_chat _ _ _ (reachable_chat _ _ _ (reachable_initial _)))
           eq_refl).
Defined.

(** ** What the chat handler answers and calls *)

Lemma chat_try_ok_shape (srv : Services) (req : request) (w w1 : world) (rsp : response) :
  chat_try srv req w = (Ok rsp, w1) ->
  exists resp, rsp = {| status := 200; json := {[ "response" := JStr resp ]} |}.
Proof.
  unfold chat_try, body_prop, get_or_new, push, read, save, throw,
    mbind, M_bind, mret, M_ret.
  intros H. repeat case_match; simplify_eq; eauto.
Qed.

(** X3.  Every chat request is answered, and in one of two shapes only: 200 with
    the single field [response], or 500 with the fixed error text, whatever
    failed. *)
Theorem chat_answers_200_or_500 (srv : Services) (req : request) (w : world) :
  (chat srv req w).1 = Ok internal_server_error \/
  exists resp,
    (chat srv req w).1 =
      Ok {| status := 200; json := {[ "response" := JStr resp ]} |}.
Proof.
  unfold chat, try_catch.
  destruct (chat_try srv req w) as [[rsp|e] w1] eqn:E; [|by left].
  right. destruct (chat_try_ok_shape srv req w w1 rsp E) as [resp ->].
  by exists resp.
Qed.

(** X5.  A request that entered the pipeline and was not answered 200 failed in
    exactly one collaborator call, and nothing was called after it: the
    rewriting call, or the retrieval after a rewriting that returned, or the
    synthesis call after both.  The error logged is the one that call threw;
    formatting the prompts never fails. *)
Theorem chat_failure_is_one_collaborator_error
    (srv : Services) (req : request) (w : world) (b : jsobj) (rsp : response) :
  wf w -> body req = Some b ->
  inherited (property_key (ip req)) = false
    \/ is_Some (userConvHistories w !! property_key (ip req)) ->
  (chat srv req w).1 = Ok rsp -> status rsp <> 200 ->
  let q := get_prop b "question" in
  let h := formatConvHistory
             (transcript w (property_key (ip req)) ++ [human_entry q]) in
  let p1 := standalone_prompt h (ToString q) in
  exists e,
    (llm srv (trace w) p1 = Throw e /\
     new_events w (chat srv req w).2 = [LlmInvoke p1; ConsoleError e])
    \/ (exists sq,
          llm srv (trace w) p1 = Ok sq /\
          retriever srv (trace w ++ [LlmInvoke p1]) sq = Throw e /\
          new_events w (chat srv req w).2 =
            [LlmInvoke p1; RetrieverInvoke sq; ConsoleError e])
    \/ (exists sq docs,
          let p2 := answer_prompt (separated (nl +:+ nl) (map pageContent docs))
                                  h (ToString q) in
          llm srv (trace w) p1 = Ok sq /\
          retriever srv (trace w ++ [LlmInvoke p1]) sq = Ok docs /\
          llm srv (trace w ++ [LlmInvoke p1; RetrieverInvoke sq; ConsoleLog docs]) p2
            = Throw e /\
          new_events w (chat srv req w).2 =
            [LlmInvoke p1; RetrieverInvoke sq; ConsoleLog docs; LlmInvoke p2;
             ConsoleError e]).
Proof.
  intros Hwf Hb Hu Hrun Hst. cbv zeta.
  pose proof (chat_run srv req b w Hb Hwf Hu) as H. cbv zeta in H.
  destruct (llm srv (trace w) _) as [sq|e] eqn:E1.
  - destruct (retriever srv _ sq) as [docs|e] eqn:E2.
    + destruct (llm srv (trace w ++ _) _) as [resp|e] eqn:E3;
        destruct H as [H1 H2]; rewrite H1 in Hrun; injection Hrun as <-; [done|].
      exists e. right; right. exists sq, docs. cbv zeta.
      split_and!; [done|done|done|]. by apply new_events_app.
    + destruct H as [_ H2]. exists e. right; left. exists sq.
      split_and!; [done|done|]. by apply new_events_app.
  - destruct H as [_ H2]. exists e. left. split; [done|]. by apply new_events_app.
Qed.

Lemma chat_failure_is_one_collaborator_error_witness :
  let q := get_prop {[ "question" := JStr "Is it free?" ]} "question" in
  let h := formatConvHistory (transcript after_one_exchange "::1" ++ [human_entry q]) in
  let p1 := standalone_prompt h (ToString q) in
  exists e,
    (llm no_index_services (trace after_one_exchange) p1 = Throw e /\
     new_events after_one_exchange
       (chat no_index_services (ask "Is it free?") after_one_exchange).2
       = [LlmInvoke p1; ConsoleError e])
    \/ (exists sq,
          llm no_index_services (trace after_one_exchange) p1 = Ok sq /\
          retriever no_index_services (trace after_one_exchange ++ [LlmInvoke p1]) sq
            = Throw e /\
          new_events after_one_exchange
            (chat no_index_services (ask "Is it free?") after_one_exchange).2 =
            [LlmInvoke p1; RetrieverInvoke sq; ConsoleError e])
    \/ (exists sq docs,
          let p2 := answer_prompt (separated (nl +:+ nl) (map pageContent docs))
                                  h (ToString q) in
          llm no_index_services (trace after_one_exchange) p1 = Ok sq /\
          retriever no_index_services (trace after_one_exchange ++ [LlmInvoke p1]) sq
            = Ok docs /\
          llm no_index_services
              (trace after_one_exchange
                 ++ [LlmInvoke p1; RetrieverInvoke sq; ConsoleLog docs]) p2
            = Throw e /\
          new_events after_one_exchange
            (chat no_index_services (ask "Is it free?") after_one_exchange).2 =
            [LlmInvoke p1; RetrieverInvoke sq; ConsoleLog docs; LlmInvoke p2;
             ConsoleError e]).
Proof.
  refine (chat_failure_is_one_collaborator_error no_index_services
            (ask "Is it free?") after_one_exchange
            {[ "question" := JStr "Is it free?" ]} internal_server_error
            wf_after_one_exchange eq_refl (or_introl eq_refl) eq_refl _).
  discriminate.
Defined.

(** X6.  A request answered 200 made exactly three calls, in this order: the
    rewriting call, the retrieval of the rewriter's output, and the synthesis
    call; nothing was logged as an error, and the [response] sent is the text
    the synthesis call returned, unchanged. *)
Theorem chat_response_is_the_synthesis_output
    (srv : Services) (req : request) (w : world) (b : jsobj) (rsp : response) :
  wf w -> body req = Some b ->
  (chat srv req w).1 = Ok rsp -> status rsp = 200 ->
  let q := get_prop b "question" in
  let h := formatConvHistory
             (transcript w (property_key (ip req)) ++ [human_entry q]) in
  let p1 := standalone_prompt h (ToString q) in
  exists sq docs resp,
    let p2 := answer_prompt (separated (nl +:+ nl) (map pageContent docs))
                            h (ToString q) in
    llm srv (trace w) p1 = Ok sq /\
    retriever srv (trace w ++ [LlmInvoke p1]) sq = Ok docs /\
    llm srv (trace w ++ [LlmInvoke p1; RetrieverInvoke sq; ConsoleLog docs]) p2
      = Ok resp /\
    json rsp = {[ "response" := JStr resp ]} /\
    new_events w (chat srv req w).2 =
      [LlmInvoke p1; RetrieverInvoke sq; ConsoleLog docs; LlmInvoke p2].
Proof.
  intros Hwf Hb Hrun Hst. cbv zeta.
  destruct (chat srv req w) as [res w'] eqn:E. cbn [fst snd] in Hrun. subst res.
  destruct (chat_ok_entered srv req w w' rsp E Hst) as (b' & Hb' & Hu).
  pose proof (chat_run srv req b w Hb Hwf Hu) as H. cbv zeta in H.
  rewrite E in H. cbn [fst snd] in H |- *.
  destruct (llm srv (trace w) _) as [sq|e] eqn:E1;
    [|destruct H as [H1 _]; injection H1 as ->; done].
  destruct (retriever srv _ sq) as [docs|e] eqn:E2;
    [|destruct H as [H1 _]; injection H1 as ->; done].
  destruct (llm srv (trace w ++ _) _) as [resp|e] eqn:E3;
    [|destruct H as [H1 _]; injection H1 as ->; done].
  destruct H as [H1 H2]. injection H1 as ->.
  exists sq, docs, resp. cbv zeta.
  split_and!; [done|done|done|done|]. by apply new_events_app.
Qed.

Lemma chat_response_is_the_synthesis_output_witness :
  let q := get_prop {[ "question" := JStr "Is it free?" ]} "question" in
  let h := formatConvHistory (transcript after_one_exchange "::1" ++ [human_entry q]) in
  let p1 := standalone_prompt h (ToString q) in
  exists sq docs resp,
    let p2 := answer_prompt (separated (nl +:+ nl) (map pageContent docs))
                            h (ToString q) in
    llm stub_services (trace after_one_exchange) p1 = Ok sq /\
    retriever stub_services (trace after_one_exchange ++ [LlmInvoke p1]) sq = Ok docs /\
    llm stub_services
        (trace after_one_exchange ++ [LlmInvoke p1; RetrieverInvoke sq; ConsoleLog docs]) p2
      = Ok resp /\
    json {| status := 200; json := {[ "response" := JStr "Courses." ]} |}
      = {[ "response" := JStr resp ]} /\
    new_events after_one_exchange
      (chat stub_services (ask "Is it free?") after_one_exchange).2 =
      [LlmInvoke p1; RetrieverInvoke sq; ConsoleLog docs; LlmInvoke p2].
Proof.
  exact (chat_response_is_the_synthesis_output stub_services (ask "Is it free?")
           after_one_exchange {[ "question" := JStr "Is it free?" ]}
           {| status := 200; json := {[ "response" := JStr "Courses." ]} |}
           wf_after_one_exchange eq_refl eq_refl eq_refl).
Defined.

(** ** The ingestion handler *)

(** X14.  Every ingestion request is answered in one of two shapes only, 200 with
    [{ success: true }] or 500 with the fixed error text, and it never
    touches the conversation store: every caller's transcript is as it
    was. *)
Theorem load_documents_answers_and_keeps_transcripts
    (srv : Services) (req : request) (w : world) :
  ((load_documents srv req w).1 = Ok internal_server_error \/
   (load_documents srv req w).1 =
     Ok {| status := 200; json := {[ "success" := JBool true ]} |}) /\
  userConvHistories (load_documents srv req w).2 = userConvHistories w /\
  forall u, transcript (load_documents srv req w).2 u = transcript w u.
Proof.
  destruct (load_documents_frame srv req w) as [Hm Ha].
  split_and!; [|done|intros u; unfold transcript; by rewrite Hm, Ha].
  destruct (body req) as [b|] eqn:Hb;
    [|rewrite (load_documents_no_body srv req w Hb); by left].
  pose proof (load_documents_run srv req b w Hb) as H. cbv zeta in H.
  destruct (loader_load srv _ _ _) as [docs|e];
    [destruct (splitter_createDocuments srv _ _) as [output|e];
     [destruct (fromDocuments srv _ _ _) as [[]|e]|]|];
    rewrite H; cbn [fst]; auto.
Qed.

(** X16.  A body that is an object without a [url] is not rejected: the crawl is
    started on undefined, and the request is answered 200 if the crawler, the
    chunker and the vector store all return. *)
Theorem load_documents_without_url
    (srv : Services) (req : request) (w : world) (b : jsobj) :
  body req = Some b -> b !! "url" = None ->
  (exists rest,
      new_events w (load_documents srv req w).2 =
        LoaderLoad JUndefined loader_options :: rest) /\
  (forall docs output,
      loader_load srv (trace w) JUndefined loader_options = Ok docs ->
      splitter_createDocuments srv (trace w ++ [LoaderLoad JUndefined loader_options])
        [JSON_stringify srv docs] = Ok output ->
      fromDocuments srv
        (trace w ++ [LoaderLoad JUndefined loader_options;
                     SplitterCreateDocuments [JSON_stringify srv docs]])
        output "documents" = Ok tt ->
      (load_documents srv req w).1 =
        Ok {| status := 200; json := {[ "success" := JBool true ]} |}).
Proof.
  intros Hb Hurl.
  assert (get_prop b "url" = JUndefined) as Eu by (unfold get_prop; by rewrite Hurl).
  pose proof (load_documents_run srv req b w Hb) as H. cbv zeta in H.
  rewrite Eu in H. split.
  - destruct (load_documents_events srv req w b Hb) as (rest & Hev & _).
    rewrite Eu in Hev. by exists rest.
  - intros docs output Hl Hsp Hst. rewrite Hl, Hsp, Hst in H. by rewrite H.
Qed.

Lemma load_documents_without_url_witness :
  (exists rest,
      new_events initial_world (load_documents stub_services load_nothing initial_world).2 =
        LoaderLoad JUndefined loader_options :: rest) /\
  (forall docs output,
      loader_load stub_services (trace initial_world) JUndefined loader_options = Ok docs ->
      splitter_createDocuments stub_services
        (trace initial_world ++ [LoaderLoad JUndefined loader_options])
        [JSON_stringify stub_services docs] = Ok output ->
      fromDocuments stub_services
        (trace initial_world ++ [LoaderLoad JUndefined loader_options;
                     SplitterCreateDocuments [JSON_stringify stub_services docs]])
        output "documents" = Ok tt ->
      (load_documents stub_services load_nothing initial_world).1 =
        Ok {| status := 200; json := {[ "success" := JBool true ]} |}).
Proof.
  exact (load_documents_without_url stub_services load_nothing initial_world ∅
           eq_refl eq_refl).
Defined.

(** X17.  An ingestion that is not answered 200, its body being an object, failed
    in exactly one of the three calls, and nothing was called after it: a
    failed crawl is followed by no chunking and no storing, a failed chunking
    by no storing.  The error logged is the one that call threw. *)
Theorem load_documents_failure_is_one_collaborator_error
    (srv : Services) (req : request) (w : world) (b : jsobj) (rsp : response) :
  body req = Some b ->
  (load_documents srv req w).1 = Ok rsp -> status rsp <> 200 ->
  let crawl := LoaderLoad (get_prop b "url") loader_options in
  exists e,
    (loader_load srv (trace w) (get_prop b "url") loader_options = Throw e /\
     new_events w (load_documents srv req w).2 = [crawl; ConsoleError e])
    \/ (exists docs,
          let split := SplitterCreateDocuments [JSON_stringify srv docs] in
          loader_load srv (trace w) (get_prop b "url") loader_options = Ok docs /\
          splitter_createDocuments srv (trace w ++ [crawl]) [JSON_stringify srv docs]
            = Throw e /\
          new_events w (load_documents srv req w).2 = [crawl; split; ConsoleError e])
    \/ (exists docs output,
          let split := SplitterCreateDocuments [JSON_stringify srv docs] in
          loader_load srv (trace w) (get_prop b "url") loader_options = Ok docs /\
          splitter_createDocuments srv (trace w ++ [crawl]) [JSON_stringify srv docs]
            = Ok output /\
          fromDocuments srv (trace w ++ [crawl; split]) output "documents" = Throw e /\
          new_events w (load_documents srv req w).2 =
            [crawl; split; VectorStoreFromDocuments output "documents";
             ConsoleError e]).
Proof.
  intros Hb Hrun Hst. cbv zeta.
  pose proof (load_documents_run srv req b w Hb) as H. cbv zeta in H.
  destruct (loader_load srv _ _ _) as [docs|e] eqn:E1.
  - destruct (splitter_createDocuments srv _ _) as [output|e] eqn:E2.
    + destruct (fromDocuments srv _ _ _) as [[]|e] eqn:E3;
        rewrite H in Hrun |- *; injection Hrun as <-; [done|].
      exists e. right; right. exists docs, output. cbv zeta.
      split_and!; [done|done|done|]. by apply new_events_app.
    + rewrite H. exists e. right; left. exists docs. cbv zeta.
      split_and!; [done|done|]. by apply new_events_app.
  - rewrite H. exists e. left. split; [done|]. by apply new_events_app.
Qed.

Lemma load_documents_failure_is_one_collaborator_error_witness :
  let crawl := LoaderLoad (get_prop {[ "url" := JStr "https://scrimba.com" ]} "url")
                 loader_options in
  exists e,
    (loader_load no_index_services (trace initial_world)
       (get_prop {[ "url" := JStr "https://scrimba.com" ]} "url") loader_options
       = Throw e /\
     new_events initial_world
       (load_documents no_index_services (load "https://scrimba.com") initial_world).2
       = [crawl; ConsoleError e])
    \/ (exists docs,
          let split := SplitterCreateDocuments [JSON_stringify no_index_services docs] in
          loader_load no_index_services (trace initial_world)
            (get_prop {[ "url" := JStr "https://scrimba.com" ]} "url") loader_options
            = Ok docs /\
          splitter_createDocuments no_index_services (trace initial_world ++ [crawl])
            [JSON_stringify no_index_services docs] = Throw e /\
          new_events initial_world
            (load_documents no_index_services (load "https://scrimba.com") initial_world).2
            = [crawl; split; ConsoleError e])
    \/ (exists docs output,
          let split := SplitterCreateDocuments [JSON_stringify no_index_services docs] in
          loader_load no_index_services (trace initial_world)
            (get_prop {[ "url" := JStr "https://scrimba.com" ]} "url") loader_options
            = Ok docs /\
          splitter_createDocuments no_index_services (trace initial_world ++ [crawl])
            [JSON_stringify no_index_services docs] = Ok output /\
          fromDocuments no_index_services (trace initial_world ++ [crawl; split])
            output "documents" = Throw e /\
          new_events initial_world
            (load_documents no_index_services (load "https://scrimba.com") initial_world).2
            = [crawl; split; VectorStoreFromDocuments output "documents";
               ConsoleError e]).
Proof.
  refine (load_documents_failure_is_one_collaborator_error no_index_services
            (load "https://scrimba.com") initial_world
            {[ "url" := JStr "https://scrimba.com" ]} internal_server_error
            eq_refl eq_refl _).
  discriminate.
Defined.

(** * Requests that overlap *)

(** The two halves, one after the other with nothing in between, are the
    [try] block of the handler. *)
Lemma chat_try_halves (srv : Services) (req : request) (w : world) :
  chat_try srv req w =
  match chat_until_await req w with
  | (Ok p, w1) => chat_from_await srv p w1
  | (Throw e, w1) => (Throw e, w1)
  end.
Proof.
  unfold chat_try, chat_until_await, chat_from_await, mbind, M_bind, mret, M_ret.
  destruct (body_prop req "question" cannot_destructure_question w) as [[q|e] w0];
    [|reflexivity].
  destruct (get_or_new (property_key (ip req)) w0) as [[h|e] w1]; [|reflexivity].
  destruct (push h _ w1) as [[[]|e] w2]; [|reflexivity].
  destruct (read h w2) as [[l|e] w3]; reflexivity.
Qed.

(** The first half for a request that has a body and a key of its own: the
    question entry is on the array, and the request is suspended holding that
    array and the history with the entry in it. *)
Lemma chat_until_await_run (req : request) (b : jsobj) (w : world) :
  body req = Some b -> wf w ->
  inherited (property_key (ip req)) = false
    \/ is_Some (userConvHistories w !! property_key (ip req)) ->
  let u := property_key (ip req) in
  let q := get_prop b "question" in
  let told := transcript w u ++ [human_entry q] in
  chat_until_await req w =
    (Ok {| s_userId := u;
           s_convHistory := ArrayRef (opened w u).1;
           s_input := {[ "question" := q;
                         "conv_history" := JStr (formatConvHistory told) ]} |},
     set_arrays (opened w u).2 (<[(opened w u).1 := told]> (arrays (opened w u).2))).
Proof.
  intros Hb Hwf Hu. cbv zeta.
  pose proof (opened_lookup w (property_key (ip req)) Hwf) as Hl.
  pose proof (lookup_lt_Some _ _ _ Hl) as Hlt.
  unfold chat_until_await, body_prop. rewrite Hb.
  unfold mbind at 1. unfold M_bind at 1. unfold mret at 1. unfold M_ret at 1.
  unfold mbind at 1. unfold M_bind at 1.
  rewrite (get_or_new_opened w _ Hu).
  unfold mbind at 1. unfold M_bind at 1.
  unfold push at 1. rewrite Hl.
  unfold mbind, M_bind, read, mret, M_ret. cbn [arrays set_arrays].
  rewrite list_lookup_insert_eq by done. reflexivity.
Qed.

(** The first half throws only before it has written anything. *)
Lemma chat_until_await_throws (req : request) (w w1 : world) (e : js_error) :
  wf w -> chat_until_await req w = (Throw e, w1) -> w1 = w.
Proof.
  intros Hwf H.
  destruct (body req) as [b|] eqn:Hb.
  - destruct (userConvHistories w !! property_key (ip req)) as [r|] eqn:Hs.
    + rewrite (chat_until_await_run req b w Hb Hwf) in H by (right; by eexists). done.
    + destruct (inherited (property_key (ip req))) eqn:Hi.
      * unfold chat_until_await, body_prop, get_or_new, push, mbind, M_bind,
          mret, M_ret in H. rewrite Hb, Hs, Hi in H. by injection H as _ <-.
      * rewrite (chat_until_await_run req b w Hb Hwf) in H by (by left). done.
  - unfold chat_until_await, body_prop, throw, mbind, M_bind in H.
    rewrite Hb in H. by injection H as _ <-.
Qed.

(** The second half for a request that holds an array: the chain, then the
    answer entry pushed onto that array and the array saved under the
    caller's key; or the [catch]. *)
Lemma chat_from_await_run (srv : Services) (p : suspended) (r : loc)
    (l : list string) (w : world) :
  s_convHistory p = ArrayRef r -> arrays w !! r = Some l ->
  try_catch (chat_from_await srv p) on_error w =
    match chain srv (s_input p) w with
    | (Ok resp, w2) =>
        (Ok {| status := 200; json := {[ "response" := JStr resp ]} |},
         {| userConvHistories := <[s_userId p := r]> (userConvHistories w);
            arrays := <[r := l ++ [ai_entry resp]]> (arrays w);
            trace := trace w2 |})
    | (Throw e, w2) =>
        (Ok internal_server_error,
         {| userConvHistories := userConvHistories w;
            arrays := arrays w;
            trace := trace w2 ++ [ConsoleError e] |})
    end.
Proof.
  intros Hp Hl.
  unfold try_catch, chat_from_await. rewrite Hp.
  unfold mbind at 1. unfold M_bind at 1.
  destruct (chain_frame srv (s_input p) w) as [Ha Hm].
  destruct (chain srv (s_input p) w) as [[resp|e] w2]; cbn [snd] in Ha, Hm.
  - unfold mbind, M_bind, push, save, mret, M_ret.
    rewrite Ha, Hl. unfold set_histories, set_arrays.
    cbn [arrays userConvHistories trace]. by rewrite Hm.
  - unfold on_error, log, mbind, M_bind, mret, M_ret, emit. by rewrite Ha, Hm.
Qed.

Lemma owned_wf (own : nat -> string) (s : server) : owned own s -> wf (sworld s).
Proof.
  intros [Hs _]. split.
  - intros u r H. by apply Hs in H as [? _].
  - intros u1 u2 r H1 H2. apply Hs in H1 as [_ <-]. by apply Hs in H2 as [_ <-].
Qed.

(** What the first half returns, when it returns. *)
Lemma chat_until_await_ok (req : request) (w w1 : world) (p : suspended) :
  wf w -> chat_until_await req w = (Ok p, w1) ->
  exists b,
    body req = Some b /\
    (inherited (property_key (ip req)) = false
     \/ is_Some (userConvHistories w !! property_key (ip req))).
Proof.
  intros Hwf H.
  destruct (body req) as [b|] eqn:Hb.
  - exists b. split; [done|].
    destruct (userConvHistories w !! property_key (ip req)) as [r|] eqn:Hs;
      [right; by eexists|].
    destruct (inherited (property_key (ip req))) eqn:Hi; [|by left].
    unfold chat_until_await, body_prop, get_or_new, push, mbind, M_bind,
      mret, M_ret in H. rewrite Hb, Hs, Hi in H. done.
  - unfold chat_until_await, body_prop, throw, mbind, M_bind in H.
    rewrite Hb in H. done.
Qed.

(** Ownership is kept by every step; arrays that exist keep their owner. *)
Lemma act_owned (srv : Services) (own : nat -> string) (a : action) (s : server) :
  owned own s ->
  exists own',
    owned own' (act srv a s).2 /\
    (forall r, r < length (arrays (sworld s)) -> own' r = own r) /\
    length (arrays (sworld s)) <= length (arrays (sworld (act srv a s).2)).
Proof.
  intros Hown. pose proof (owned_wf own s Hown) as Hwf.
  destruct Hown as [Hst Hfl].
  destruct a as [req|id|req]; cbn [act].
  - (* a chat request arrives *)
    destruct (chat_until_await req (sworld s)) as [[p|e] w1] eqn:E.
    + destruct (chat_until_await_ok req _ _ _ Hwf E) as (b & Hb & Hu).
      rewrite (chat_until_await_run req b (sworld s) Hb Hwf Hu) in E.
      cbv zeta in E. injection E as <- <-. cbn [snd sworld in_flight next_id].
      unfold opened.
      destruct (userConvHistories (sworld s) !! property_key (ip req))
        as [r0|] eqn:Hs; cbn [fst snd arrays set_arrays userConvHistories].
      * exists own. split_and!; [split| |]; cbn [sworld in_flight next_id
          arrays set_arrays userConvHistories].
        -- intros u r H. rewrite length_insert. by apply Hst.
        -- intros id p [[<- <-]|[Hne H]]%lookup_insert_Some.
           ++ split; [lia|]. exists r0. cbn [s_convHistory s_userId].
              rewrite length_insert. destruct (Hst _ _ Hs). done.
           ++ destruct (Hfl _ _ H) as (Hid & r & Hr & Hlt & Ho).
              split; [lia|]. exists r. by rewrite length_insert.
        -- done.
        -- by rewrite length_insert.
      * exists (fun r => if decide (r = length (arrays (sworld s)))
                         then property_key (ip req) else own r).
        split_and!; [split| |]; cbn [sworld in_flight next_id
          arrays set_arrays userConvHistories].
        -- intros u r H. rewrite length_insert, length_app. cbn [length].
           destruct (Hst _ _ H) as [Hlt Ho]. split; [lia|].
           case_decide; [lia|done].
        -- intros id p [[<- <-]|[Hne H]]%lookup_insert_Some.
           ++ split; [lia|]. exists (length (arrays (sworld s))).
              cbn [s_convHistory s_userId].
              rewrite length_insert, length_app. cbn [length].
              split_and!; [done|lia|]. by case_decide.
           ++ destruct (Hfl _ _ H) as (Hid & r & Hr & Hlt & Ho).
              split; [lia|]. exists r.
              rewrite length_insert, length_app. cbn [length].
              split_and!; [done|lia|]. case_decide; [lia|done].
        -- intros r Hlt. case_decide; [lia|done].
        -- rewrite length_insert, length_app. lia.
    + rewrite (chat_until_await_throws req _ _ _ Hwf E).
      exists own. cbn [snd sworld in_flight next_id on_error].
      unfold on_error, log, mbind, M_bind, mret, M_ret, emit.
      cbn [snd sworld arrays userConvHistories].
      split_and!; [split| |]; cbn [sworld in_flight next_id arrays userConvHistories];
        [done| |done|done].
      intros id p H. destruct (Hfl _ _ H) as (Hid & Hr). split; [lia|done].
  - (* a suspended chat request goes on *)
    destruct (in_flight s !! id) as [p|] eqn:Hp;
      [|exists own; cbn [snd]; split_and!; [by split|done|done]].
    destruct (Hfl _ _ Hp) as (Hid & r & Hr & Hlt & Ho).
    destruct (lookup_lt_is_Some_2 _ _ Hlt) as [l Hl].
    rewrite (chat_from_await_run srv p r l (sworld s) Hr Hl).
    exists own. cbn [snd sworld in_flight next_id].
    destruct (chain srv (s_input p) (sworld s)) as [[resp|e] w2];
      cbn [snd sworld arrays userConvHistories];
      (split_and!; [split| |]);
      cbn [sworld in_flight next_id arrays userConvHistories];
      rewrite ?length_insert; try done.
    + intros u r' [[<- <-]|[Hne H]]%lookup_insert_Some; [done|by apply Hst].
    + intros id' p' [Hne H]%lookup_delete_Some.
      destruct (Hfl _ _ H) as (Hid' & r' & Hr' & Hlt' & Ho').
      split; [done|]. by exists r'.
    + intros id' p' [Hne H]%lookup_delete_Some. by apply Hfl.
  - (* an ingestion request *)
    destruct (load_documents_frame srv req (sworld s)) as [Hm Ha].
    exists own. cbn [snd sworld in_flight next_id].
    split_and!; [split| |]; cbn [sworld in_flight next_id];
      rewrite ?Hm, ?Ha; done.
Qed.

(** A step that does not belong to caller [u] leaves alone what belongs to
    [u]: the key, the arrays and the suspended requests. *)
Lemma act_frame (srv : Services) (own : nat -> string) (a : action) (s : server)
    (u : string) :
  owned own s -> actor a s <> Some u ->
  userConvHistories (sworld (act srv a s).2) !! u
    = userConvHistories (sworld s) !! u /\
  (forall r, r < length (arrays (sworld s)) -> own r = u ->
     arrays (sworld (act srv a s).2) !! r = arrays (sworld s) !! r) /\
  (forall id p, in_flight s !! id = Some p -> s_userId p = u ->
     in_flight (act srv a s).2 !! id = Some p).
Proof.
  intros Hown Hact. pose proof (owned_wf own s Hown) as Hwf.
  destruct Hown as [Hst Hfl].
  destruct a as [req|id|req]; cbn [act actor] in *.
  - assert (property_key (ip req) <> u) as Hne by congruence.
    destruct (chat_until_await req (sworld s)) as [[p|e] w1] eqn:E.
    + destruct (chat_until_await_ok req _ _ _ Hwf E) as (b & Hb & Hu).
      rewrite (chat_until_await_run req b (sworld s) Hb Hwf Hu) in E.
      cbv zeta in E. injection E as <- <-. cbn [snd sworld in_flight next_id].
      unfold opened.
      destruct (userConvHistories (sworld s) !! property_key (ip req))
        as [r0|] eqn:Hs; cbn [fst snd arrays set_arrays userConvHistories];
        split_and!; try done.
      * intros r Hlt Ho. rewrite list_lookup_insert_ne; [done|].
        intros ->. destruct (Hst _ _ Hs) as [_ Ho']. congruence.
      * intros id p H _. destruct (Hfl _ _ H) as [Hid _].
        rewrite lookup_insert_ne; [done|lia].
      * intros r Hlt Ho. rewrite list_lookup_insert_ne by lia.
        by rewrite lookup_app_l.
      * intros id p H _. destruct (Hfl _ _ H) as [Hid _].
        rewrite lookup_insert_ne; [done|lia].
    + rewrite (chat_until_await_throws req _ _ _ Hwf E).
      unfold on_error, log, mbind, M_bind, mret, M_ret, emit.
      cbn [snd sworld in_flight arrays userConvHistories]. done.
  - destruct (in_flight s !! id) as [p|] eqn:Hp; [|done].
    cbn [fmap option_fmap option_map] in Hact.
    assert (s_userId p <> u) as Hne by congruence.
    destruct (Hfl _ _ Hp) as (Hid & r & Hr & Hlt & Ho).
    destruct (lookup_lt_is_Some_2 _ _ Hlt) as [l Hl].
    rewrite (chat_from_await_run srv p r l (sworld s) Hr Hl).
    cbn [snd sworld in_flight next_id].
    destruct (chain srv (s_input p) (sworld s)) as [[resp|e] w2];
      cbn [snd sworld arrays userConvHistories]; split_and!; try done.
    + by rewrite lookup_insert_ne.
    + intros r' Hlt' Ho'. rewrite list_lookup_insert_ne; [done|congruence].
    + intros id' p' H Hu'. rewrite lookup_delete_ne; [done|].
      intros ->. congruence.
    + intros id' p' H Hu'. rewrite lookup_delete_ne; [done|].
      intros ->. congruence.
  - destruct (load_documents_frame srv req (sworld s)) as [Hm Ha].
    cbn [snd sworld in_flight]. by rewrite Hm, Ha.
Qed.

(** The same for any number of steps, none of which belongs to [u]. *)
Lemma run_frame (srv : Services) (u : string) (acts : list action) :
  forall (own : nat -> string) (s : server),
  owned own s -> others_only srv u acts s ->
  exists own',
    owned own' (run srv acts s) /\
    (forall r, r < length (arrays (sworld s)) -> own' r = own r) /\
    userConvHistories (sworld (run srv acts s)) !! u
      = userConvHistories (sworld s) !! u /\
    (forall r, r < length (arrays (sworld s)) -> own r = u ->
       arrays (sworld (run srv acts s)) !! r = arrays (sworld s) !! r) /\
    (forall id p, in_flight s !! id = Some p -> s_userId p = u ->
       in_flight (run srv acts s) !! id = Some p).
Proof.
  induction acts as [|a acts IH]; intros own s Hown Hothers; cbn [run].
  - exists own. by split_and!.
  - destruct Hothers as [Hact Hrest].
    destruct (act_owned srv own a s Hown) as (own1 & Hown1 & Hagree & Hlen).
    destruct (act_frame srv own a s u Hown Hact) as (Hk & Ha & Hf).
    destruct (IH own1 _ Hown1 Hrest) as (own2 & Hown2 & Hagree2 & Hk2 & Ha2 & Hf2).
    exists own2. split_and!; [done| | | |].
    + intros r Hlt. rewrite Hagree2 by lia. by apply Hagree.
    + by rewrite Hk2.
    + intros r Hlt Ho. rewrite Ha2; [by apply Ha|lia|]. by rewrite Hagree.
    + intros id p H Hu. apply Hf2; [|done]. by apply Hf.
Qed.

Lemma owned_idle : owned (fun _ => EmptyString) idle.
Proof.
  split; intros *; cbn [idle sworld in_flight userConvHistories initial_world];
    by rewrite lookup_empty.
Qed.

(** In every state the server can be in, requests overlapping as they may,
    the arrays have owners. *)
Lemma serving_owned (srv : Services) (s : server) :
  serving srv s -> exists own, owned own s.
Proof.
  induction 1 as [|a s _ [own IH]].
  - eexists. exact owned_idle.
  - destruct (act_owned srv own a s IH) as (own' & H & _). by exists own'.
Qed.

(** A number no request has arrived with is not the number of a suspended
    request, and stays so while other requests arrive. *)
Lemma act_absent (srv : Services) (own : nat -> string) (a : action) (s : server)
    (id : nat) :
  in_flight s !! id = None -> id < next_id s ->
  in_flight (act srv a s).2 !! id = None /\ id < next_id (act srv a s).2.
Proof.
  intros Hn Hlt. destruct a as [req|id'|req]; cbn [act].
  - destruct (chat_until_await req (sworld s)) as [[p|e] w1];
      cbn [snd in_flight next_id]; (split; [|lia]); [|done].
    rewrite lookup_insert_ne; [done|lia].
  - destruct (in_flight s !! id') as [p|]; cbn [snd in_flight next_id]; [|done].
    split; [|done]. by apply lookup_delete_None; right.
  - done.
Qed.

Lemma run_absent (srv : Services) (own : nat -> string) (acts : list action) :
  forall (s : server) (id : nat),
  in_flight s !! id = None -> id < next_id s ->
  in_flight (run srv acts s) !! id = None.
Proof.
  induction acts as [|a acts IH]; intros s id Hn Hlt; cbn [run]; [done|].
  destruct (act_absent srv own a s id Hn Hlt). by apply IH.
Qed.

(** A request that arrives, is suspended, and goes on after steps of other
    callers only: what it is suspended with is still there, its array holds
    the transcript it found and its question entry, and the caller's key is
    as it was. *)
Lemma suspended_undisturbed (srv : Services) (own : nat -> string) (s : server)
    (req : request) (b : jsobj) (between : list action) :
  owned own s -> body req = Some b ->
  inherited (property_key (ip req)) = false
    \/ is_Some (userConvHistories (sworld s) !! property_key (ip req)) ->
  others_only srv (property_key (ip req)) between (act srv (Arrive req) s).2 ->
  let u := property_key (ip req) in
  let q := get_prop b "question" in
  let told := transcript (sworld s) u ++ [human_entry q] in
  let r := (opened (sworld s) u).1 in
  let s2 := run srv between (act srv (Arrive req) s).2 in
  (act srv (Arrive req) s).1 = None /\
  in_flight s2 !! next_id s =
    Some {| s_userId := u; s_convHistory := ArrayRef r;
            s_input := {[ "question" := q;
                          "conv_history" := JStr (formatConvHistory told) ]} |} /\
  arrays (sworld s2) !! r = Some told /\
  userConvHistories (sworld s2) !! u = userConvHistories (sworld s) !! u /\
  exists own2, owned own2 s2.
Proof.
  intros Hown Hb Hu Hothers. cbv zeta.
  pose proof (owned_wf own s Hown) as Hwf.
  destruct (act_owned srv own (Arrive req) s Hown) as (own1 & Hown1 & Hagree & Hlen).
  destruct (run_frame srv (property_key (ip req)) between own1 _ Hown1 Hothers)
    as (own2 & Hown2 & Hagree2 & Hk & Ha & Hf).
  pose proof (opened_lookup (sworld s) (property_key (ip req)) Hwf) as Hl.
  pose proof (lookup_lt_Some _ _ _ Hl) as Hlt.
  revert Hown1 Hown2 Hk Ha Hf. cbn [act].
  rewrite (chat_until_await_run req b (sworld s) Hb Hwf Hu). cbv zeta.
  cbn [fst snd sworld in_flight next_id]. intros Hown1 Hown2 Hk Ha Hf.
  destruct (opened_frame (sworld s) (property_key (ip req))) as [Hm _].
  cbn [set_arrays userConvHistories arrays] in Hk, Ha.
  split_and!; [done| | | |by exists own2].
  - apply Hf; [apply lookup_insert_eq|done].
  - rewrite Ha.
    + by apply list_lookup_insert_eq.
    + by rewrite length_insert.
    + destruct Hown1 as [_ Hfl].
      destruct (Hfl (next_id s) _ (lookup_insert_eq _ _ _)) as (_ & r' & Hr' & _ & Ho).
      cbn [s_convHistory s_userId] in Hr', Ho. by injection Hr' as <-.
  - by rewrite Hk, Hm.
Qed.

Lemma act_resume (srv : Services) (s : server) (id : nat) (p : suspended) :
  in_flight s !! id = Some p ->
  act srv (Resume id) s =
    (sent (try_catch (chat_from_await srv p) on_error (sworld s)).1,
     {| sworld := (try_catch (chat_from_await srv p) on_error (sworld s)).2;
        in_flight := delete id (in_flight s);
        next_id := next_id s |}).
Proof. intros H. cbn [act]. by rewrite H. Qed.

Lemma act_resume_none (srv : Services) (s : server) (id : nat) :
  in_flight s !! id = None -> act srv (Resume id) s = (None, s).
Proof. intros H. cbn [act]. by rewrite H. Qed.

(** The same request, when it then goes on and is answered: its array has
    the answer entry added and is saved under the caller's key. *)
Lemma exchange_undisturbed (srv : Services) (own : nat -> string) (s : server)
    (req : request) (between : list action) (rsp : response) :
  owned own s ->
  others_only srv (property_key (ip req)) between (act srv (Arrive req) s).2 ->
  (act srv (Resume (next_id s)) (run srv between (act srv (Arrive req) s).2)).1
    = Some rsp ->
  status rsp = 200 ->
  exists b resp,
    body req = Some b /\
    json rsp = {[ "response" := JStr resp ]} /\
    transcript
      (sworld (act srv (Resume (next_id s))
                 (run srv between (act srv (Arrive req) s).2)).2)
      (property_key (ip req)) =
    transcript (sworld s) (property_key (ip req))
      ++ [human_entry (get_prop b "question"); ai_entry resp].
Proof.
  intros Hown Hothers Hrun Hst.
  pose proof (owned_wf own s Hown) as Hwf.
  destruct (chat_until_await req (sworld s)) as [[p|e] w1] eqn:E.
  - destruct (chat_until_await_ok req _ _ _ Hwf E) as (b & Hb & Hu).
    destruct (suspended_undisturbed srv own s req b between Hown Hb Hu Hothers)
      as (_ & Hp & Hl & Hk & _).
    revert Hrun. rewrite (act_resume srv _ _ _ Hp). cbn [fst snd sworld].
    match goal with |- context [try_catch (chat_from_await srv ?p) on_error ?w] =>
      rewrite (chat_from_await_run srv p _ _ w eq_refl Hl) end.
    cbn [s_input s_userId].
    destruct (chain srv _ _) as [[resp|e] w2]; cbn [fst snd sent sworld];
      intros Hrun; injection Hrun as <-; [|done].
    exists b, resp. split_and!; [done|done|].
    unfold transcript at 1. cbn [userConvHistories arrays].
    rewrite lookup_insert_eq, list_lookup_insert_eq
      by (by eapply lookup_lt_Some). cbn [default from_option].
    by rewrite <- app_assoc.
  - (* the request was answered at its arrival: nothing is suspended *)
    destruct Hown as [Hst' Hfl].
    assert (in_flight s !! next_id s = None) as Hnone.
    { destruct (in_flight s !! next_id s) as [p|] eqn:Hp; [|done].
      destruct (Hfl _ _ Hp) as [Hid _]. lia. }
    assert (in_flight (run srv between (act srv (Arrive req) s).2) !! next_id s
            = None) as Hgone.
    { apply (run_absent srv own); cbn [act]; rewrite E; cbn [snd in_flight next_id];
        [done|lia]. }
    rewrite (act_resume_none srv _ _ Hgone) in Hrun. done.
Qed.




(** A request handled with no step in between is the handler run from its
    first line to its response. *)
Lemma chat_is_arrive_then_resume (srv : Services) (own : nat -> string)
    (s : server) (req : request) :
  owned own s ->
  sworld (run srv [Arrive req; Resume (next_id s)] s) = (chat srv req (sworld s)).2.
Proof.
  intros Hown. destruct Hown as [_ Hfl].
  assert (in_flight s !! next_id s = None) as Hnone.
  { destruct (in_flight s !! next_id s) as [p|] eqn:Hp; [|done].
    destruct (Hfl _ _ Hp) as [Hid _]. lia. }
  unfold chat, try_catch. rewrite chat_try_halves. cbn [run act].
  destruct (chat_until_await req (sworld s)) as [[p|e] w1];
    cbn [snd in_flight sworld next_id].
  - rewrite lookup_insert_eq. cbn [snd sworld]. unfold try_catch.
    by destruct (chat_from_await srv p w1) as [[rsp|e] w2].
  - by rewrite Hnone.
Qed.

Lemma act_keeps_transcript (srv : Services) (own : nat -> string) (a : action)
    (s : server) (u : string) :
  owned own s -> actor a s <> Some u ->
  transcript (sworld (act srv a s).2) u = transcript (sworld s) u.
Proof.
  intros Hown Hact.
  destruct (act_frame srv own a s u Hown Hact) as (Hk & Ha & _).
  unfold transcript. rewrite Hk.
  destruct (userConvHistories (sworld s) !! u) as [r|] eqn:Hs; [|done].
  destruct Hown as [Hst _]. destruct (Hst _ _ Hs) as [Hlt Ho].
  by rewrite Ha.
Qed.

Lemma run_keeps_transcript (srv : Services) (u : string) (acts : list action) :
  forall (own : nat -> string) (s : server),
  owned own s -> others_only srv u acts s ->
  transcript (sworld (run srv acts s)) u = transcript (sworld s) u.
Proof.
  induction acts as [|a acts IH]; intros own s Hown Hothers; cbn [run]; [done|].
  destruct Hothers as [Hact Hrest].
  destruct (act_owned srv own a s Hown) as (own1 & Hown1 & _).
  rewrite (IH own1 _ Hown1 Hrest). by apply (act_keeps_transcript srv own).
Qed.

Lemma run_owned (srv : Services) (acts : list action) :
  forall (own : nat -> string) (s : server),
  owned own s -> exists own', owned own' (run srv acts s).
Proof.
  induction acts as [|a acts IH]; intros own s Hown; cbn [run]; [by exists own|].
  destruct (act_owned srv own a s Hown) as (own1 & Hown1 & _). by eapply IH.
Qed.

(** A request that arrives, waits while only other callers' steps run, and
    goes on: whatever the outcome, what it leaves for its caller. *)
Lemma resumed_undisturbed (srv : Services) (own : nat -> string) (s : server)
    (req : request) (b : jsobj) (between : list action) :
  owned own s -> body req = Some b ->
  inherited (property_key (ip req)) = false
    \/ is_Some (userConvHistories (sworld s) !! property_key (ip req)) ->
  others_only srv (property_key (ip req)) between (act srv (Arrive req) s).2 ->
  let u := property_key (ip req) in
  let told := transcript (sworld s) u ++ [human_entry (get_prop b "question")] in
  let s2 := run srv between (act srv (Arrive req) s).2 in
  ((act srv (Resume (next_id s)) s2).1 = Some internal_server_error /\
   transcript (sworld (act srv (Resume (next_id s)) s2).2) u =
     match userConvHistories (sworld s) !! u with
     | Some _ => told
     | None => []
     end)
  \/ (exists resp,
        (act srv (Resume (next_id s)) s2).1 =
          Some {| status := 200; json := {[ "response" := JStr resp ]} |} /\
        transcript (sworld (act srv (Resume (next_id s)) s2).2) u =
          told ++ [ai_entry resp]).
Proof.
  intros Hown Hb Hu Hothers. cbv zeta.
  destruct (suspended_undisturbed srv own s req b between Hown Hb Hu Hothers)
    as (_ & Hp & Hl & Hk & _).
  rewrite (act_resume srv _ _ _ Hp). cbn [fst snd sworld].
  match goal with |- context [try_catch (chat_from_await srv ?p) on_error ?w] =>
    rewrite (chat_from_await_run srv p _ _ w eq_refl Hl) end.
  cbn [s_input s_userId].
  destruct (chain srv _ _) as [[resp|e] w2]; cbn [fst snd sent sworld].
  - right. exists resp. split; [done|].
    unfold transcript at 1. cbn [userConvHistories arrays].
    rewrite lookup_insert_eq, list_lookup_insert_eq
      by (by eapply lookup_lt_Some). done.
  - left. split; [done|].
    unfold transcript at 1. cbn [userConvHistories arrays]. rewrite Hk.
    destruct (userConvHistories (sworld s) !! property_key (ip req)) as [r|] eqn:Hs;
      [|done].
    replace r with (opened (sworld s) (property_key (ip req))).1
      by (unfold opened; by rewrite Hs).
    by rewrite Hl.
Qed.

(** X18.  In every state the server can be in, a step that does not belong to
    a caller (the arrival or the going on of another caller's chat request,
    or an ingestion) leaves that caller's transcript as it was, however the
    requests overlap. *)
Theorem step_leaves_other_callers
    (srv : Services) (s : server) (a : action) (u : string) :
  serving srv s -> actor a s <> Some u ->
  transcript (sworld (act srv a s).2) u = transcript (sworld s) u.
Proof.
  intros Hs Hact. destruct (serving_owned srv s Hs) as [own Hown].
  by apply (act_keeps_transcript srv own).
Qed.

Lemma step_leaves_other_callers_witness :
  transcript
    (sworld (act stub_services (Resume 1)
               (act stub_services (Arrive (ask_from "10.0.0.7" "Hello")) served_one).2).2)
    "::1"
  = transcript
      (sworld (act stub_services (Arrive (ask_from "10.0.0.7" "Hello")) served_one).2)
      "::1".
Proof.
  refine (step_leaves_other_callers stub_services
            (act stub_services (Arrive (ask_from "10.0.0.7" "Hello")) served_one).2
            (Resume 1) "::1"
            (serving_act _ (Arrive (ask_from "10.0.0.7" "Hello")) _
               (serving_act _ (Resume 0) _
                  (serving_act _ (Arrive (ask "What does Scrimba offer?")) _
                     (serving_idle _))))
            _).
  vm_compute. discriminate.
Defined.

(** X8.  No step removes or rewrites an entry or a key: every array only
    grows at its end, and a key that is stored stays stored.  A caller's
    transcript therefore only grows as long as the caller's key keeps its
    array; the key is given another array only by the going on of a
    suspended request of that same caller, which saves the array it holds. *)
Theorem steps_only_append (srv : Services) (s : server) (a : action) :
  serving srv s ->
  (forall r l, arrays (sworld s) !! r = Some l ->
     exists k, arrays (sworld (act srv a s).2) !! r = Some (l ++ k)) /\
  (forall u, is_Some (userConvHistories (sworld s) !! u) ->
     is_Some (userConvHistories (sworld (act srv a s).2) !! u)) /\
  (forall u,
     (forall r, userConvHistories (sworld s) !! u = Some r ->
                userConvHistories (sworld (act srv a s).2) !! u = Some r) ->
     transcript (sworld s) u `prefix_of` transcript (sworld (act srv a s).2) u) /\
  (forall u,
     userConvHistories (sworld (act srv a s).2) !! u
       <> userConvHistories (sworld s) !! u ->
     exists id p r,
       a = Resume id /\ in_flight s !! id = Some p /\ s_userId p = u /\
       s_convHistory p = ArrayRef r /\
       userConvHistories (sworld (act srv a s).2) !! u = Some r).
Proof.
  intros Hs. destruct (serving_owned srv s Hs) as [own Hown].
  pose proof (owned_wf own s Hown) as Hwf.
  assert (forall r l, arrays (sworld s) !! r = Some l ->
            exists k, arrays (sworld (act srv a s).2) !! r = Some (l ++ k)) as Hgrow.
  { intros r l Hl. destruct a as [req|id|req]; cbn [act].
    - destruct (chat_until_await req (sworld s)) as [[p|e] w1] eqn:E.
      + destruct (chat_until_await_ok req _ _ _ Hwf E) as (b & Hb & Hu).
        rewrite (chat_until_await_run req b (sworld s) Hb Hwf Hu) in E.
        cbv zeta in E. injection E as <- <-. cbn [snd sworld arrays set_arrays].
        pose proof (opened_lookup (sworld s) (property_key (ip req)) Hwf) as Ho.
        destruct (decide (r = (opened (sworld s) (property_key (ip req))).1))
          as [->|Hne].
        * rewrite list_lookup_insert_eq by (by eapply lookup_lt_Some).
          unfold opened in Ho, Hl |- *.
          destruct (userConvHistories (sworld s) !! property_key (ip req))
            as [r0|] eqn:Hs0; cbn [fst snd arrays set_arrays] in Ho, Hl |- *.
          -- rewrite Hl in Ho. injection Ho as <-. by eexists.
          -- apply lookup_lt_Some in Hl. lia.
        * rewrite list_lookup_insert_ne by done.
          unfold opened.
          destruct (userConvHistories (sworld s) !! property_key (ip req));
            cbn [fst snd arrays set_arrays].
          -- exists []. by rewrite app_nil_r.
          -- exists []. rewrite app_nil_r, lookup_app_l; [done|].
             by eapply lookup_lt_Some.
      + rewrite (chat_until_await_throws req _ _ _ Hwf E).
        unfold on_error, log, mbind, M_bind, mret, M_ret, emit.
        cbn [snd sworld arrays]. exists []. by rewrite app_nil_r.
    - destruct (in_flight s !! id) as [p|] eqn:Hp;
        [|exists []; by rewrite app_nil_r].
      destruct Hown as [_ Hfl].
      destruct (Hfl _ _ Hp) as (_ & r0 & Hr & Hlt & _).
      destruct (lookup_lt_is_Some_2 _ _ Hlt) as [l0 Hl0].
      rewrite (chat_from_await_run srv p r0 l0 (sworld s) Hr Hl0).
      destruct (chain srv (s_input p) (sworld s)) as [[resp|e] w2];
        cbn [snd sworld arrays]; [|exists []; by rewrite app_nil_r].
      destruct (decide (r = r0)) as [->|Hne].
      + rewrite list_lookup_insert_eq by done.
        rewrite Hl in Hl0. injection Hl0 as <-. by eexists.
      + rewrite list_lookup_insert_ne by done. exists []. by rewrite app_nil_r.
    - destruct (load_documents_frame srv req (sworld s)) as [_ Ha].
      cbn [snd sworld]. rewrite Ha. exists []. by rewrite app_nil_r. }
  assert (forall u,
            userConvHistories (sworld (act srv a s).2) !! u
              <> userConvHistories (sworld s) !! u ->
            exists id p r,
              a = Resume id /\ in_flight s !! id = Some p /\ s_userId p = u /\
              s_convHistory p = ArrayRef r /\
              userConvHistories (sworld (act srv a s).2) !! u = Some r) as Hkey.
  { intros u Hch.
    destruct (decide (actor a s = Some u)) as [Hact|Hact];
      [|by destruct (act_frame srv own a s u Hown Hact) as (Hk & _)].
    destruct a as [req|id|req]; cbn [actor] in Hact; [| |done].
    - exfalso. apply Hch. cbn [act].
      destruct (chat_until_await req (sworld s)) as [[p|e] w1] eqn:E.
      + destruct (chat_until_await_ok req _ _ _ Hwf E) as (b & Hb & Hu).
        rewrite (chat_until_await_run req b (sworld s) Hb Hwf Hu) in E.
        cbv zeta in E. injection E as <- <-.
        cbn [snd sworld userConvHistories set_arrays].
        by destruct (opened_frame (sworld s) (property_key (ip req))) as [-> _].
      + rewrite (chat_until_await_throws req _ _ _ Hwf E).
        unfold on_error, log, mbind, M_bind, mret, M_ret, emit. done.
    - destruct (in_flight s !! id) as [p|] eqn:Hp; [|done].
      cbn [fmap option_fmap option_map] in Hact. injection Hact as Hu.
      destruct Hown as [_ Hfl].
      destruct (Hfl _ _ Hp) as (_ & r0 & Hr & Hlt & _).
      destruct (lookup_lt_is_Some_2 _ _ Hlt) as [l0 Hl0].
      exists id, p, r0. split_and!; [done|done|done|done|].
      revert Hch. rewrite (act_resume srv _ _ _ Hp). cbn [snd sworld].
      rewrite (chat_from_await_run srv p r0 l0 (sworld s) Hr Hl0).
      destruct (chain srv (s_input p) (sworld s)) as [[resp|e] w2];
        cbn [snd sworld userConvHistories]; [|done].
      intros _. rewrite Hu. apply lookup_insert_eq. }
  split_and!; [exact Hgrow| | |exact Hkey].
  - intros u [r Hr].
    destruct (decide (userConvHistories (sworld (act srv a s).2) !! u
                      = userConvHistories (sworld s) !! u)) as [->|Hch];
      [by eexists|].
    destruct (Hkey u Hch) as (_ & _ & r' & _ & _ & _ & _ & ->). by eexists.
  - intros u Hsame. unfold transcript.
    destruct (userConvHistories (sworld s) !! u) as [r|] eqn:Hr;
      [|apply prefix_nil].
    rewrite (Hsame r eq_refl).
    destruct Hown as [Hst _]. destruct (Hst _ _ Hr) as [Hlt _].
    destruct (lookup_lt_is_Some_2 _ _ Hlt) as [l Hl].
    destruct (Hgrow r l Hl) as [k Hk]. rewrite Hl, Hk. cbn [default from_option].
    by apply prefix_app_r.
Qed.

Lemma steps_only_append_witness :
  (forall r l, arrays (sworld served_one) !! r = Some l ->
     exists k, arrays (sworld (act stub_services (Arrive (ask "B")) served_one).2) !! r
               = Some (l ++ k)) /\
  (forall u, is_Some (userConvHistories (sworld served_one) !! u) ->
     is_Some (userConvHistories
                (sworld (act stub_services (Arrive (ask "B")) served_one).2) !! u)) /\
  (forall u,
     (forall r, userConvHistories (sworld served_one) !! u = Some r ->
                userConvHistories
                  (sworld (act stub_services (Arrive (ask "B")) served_one).2) !! u
                = Some r) ->
     transcript (sworld served_one) u
       `prefix_of` transcript
                     (sworld (act stub_services (Arrive (ask "B")) served_one).2) u) /\
  (forall u,
     userConvHistories (sworld (act stub_services (Arrive (ask "B")) served_one).2) !! u
       <> userConvHistories (sworld served_one) !! u ->
     exists id p r,
       Arrive (ask "B") = Resume id /\ in_flight served_one !! id = Some p /\
       s_userId p = u /\ s_convHistory p = ArrayRef r /\
       userConvHistories (sworld (act stub_services (Arrive (ask "B")) served_one).2) !! u
         = Some r).
Proof.
  exact (steps_only_append stub_services served_one (Arrive (ask "B"))
           (serving_act _ (Resume 0) _
              (serving_act _ (Arrive (ask "What does Scrimba offer?")) _
                 (serving_idle _)))).
Defined.

(** ** Requests of one caller, one after the other *)

Lemma stored_when_transcript (w : world) (u : string) :
  transcript w u <> [] -> is_Some (userConvHistories w !! u).
Proof.
  unfold transcript. destruct (userConvHistories w !! u); [by eexists|done].
Qed.

(** What the next request of a caller is suspended with, after steps of
    other callers only: the history is the caller's transcript and the new
    question entry. *)
Lemma next_arrival_history (srv : Services) (own : nat -> string) (s : server)
    (u : string) (between : list action) (req : request) (b : jsobj) :
  owned own s -> others_only srv u between s ->
  transcript (sworld s) u <> [] ->
  body req = Some b -> property_key (ip req) = u ->
  in_flight (act srv (Arrive req) (run srv between s)).2 !! next_id (run srv between s)
  = Some {| s_userId := u;
            s_convHistory :=
              ArrayRef (opened (sworld (run srv between s)) u).1;
            s_input :=
              {[ "question" := get_prop b "question";
                 "conv_history" :=
                   JStr (formatConvHistory
                           (transcript (sworld s) u
                              ++ [human_entry (get_prop b "question")])) ]} |}.
Proof.
  intros Hown Hothers Hne Hb Hu.
  destruct (run_owned srv between own s Hown) as [own4 Hown4].
  pose proof (run_keeps_transcript srv u between own s Hown Hothers) as Ht.
  assert (inherited (property_key (ip req)) = false
          \/ is_Some (userConvHistories (sworld (run srv between s))
                        !! property_key (ip req))) as Hu4.
  { right. rewrite Hu. apply stored_when_transcript. by rewrite Ht. }
  destruct (suspended_undisturbed srv own4 (run srv between s) req b []
              Hown4 Hb Hu4 I) as (_ & Hp & _).
  cbn [run] in Hp. rewrite Hp, Hu, Ht. done.
Qed.

(** X12.  After a chat request answered 200 with no step of the same caller
    between its arrival and its response, the next chat request of that
    caller, if no other request of the caller arrives or goes on before it,
    hands to the chain a history made of the transcript the first request
    found, the first question entry, the first answer entry and the new
    question entry.  Requests of other callers may run in between. *)
Theorem next_request_sees_the_exchange
    (srv : Services) (s : server) (req1 req2 : request)
    (between1 between2 : list action) (rsp1 : response) (b2 : jsobj) :
  serving srv s ->
  let u := property_key (ip req1) in
  let s2 := run srv between1 (act srv (Arrive req1) s).2 in
  let s3 := (act srv (Resume (next_id s)) s2).2 in
  let s4 := run srv between2 s3 in
  others_only srv u between1 (act srv (Arrive req1) s).2 ->
  (act srv (Resume (next_id s)) s2).1 = Some rsp1 -> status rsp1 = 200 ->
  others_only srv u between2 s3 ->
  body req2 = Some b2 -> ip req2 = ip req1 ->
  exists b1 resp1 p,
    body req1 = Some b1 /\
    json rsp1 = {[ "response" := JStr resp1 ]} /\
    in_flight (act srv (Arrive req2) s4).2 !! next_id s4 = Some p /\
    s_input p =
      {[ "question" := get_prop b2 "question";
         "conv_history" :=
           JStr (formatConvHistory
                   (transcript (sworld s) u
                      ++ [human_entry (get_prop b1 "question"); ai_entry resp1;
                          human_entry (get_prop b2 "question")])) ]}.
Proof.
  intros Hs. cbv zeta. intros Ho1 Hrun Hst Ho2 Hb2 Hip.
  destruct (serving_owned srv s Hs) as [own Hown].
  destruct (exchange_undisturbed srv own s req1 between1 rsp1 Hown Ho1 Hrun Hst)
    as (b1 & resp1 & Hb1 & Hj & Ht).
  destruct (act_owned srv own (Arrive req1) s Hown) as (own1 & Hown1 & _).
  destruct (run_owned srv between1 own1 _ Hown1) as [own2 Hown2].
  destruct (act_owned srv own2 (Resume (next_id s)) _ Hown2) as (own3 & Hown3 & _).
  assert (transcript
            (sworld (act srv (Resume (next_id s))
                       (run srv between1 (act srv (Arrive req1) s).2)).2)
            (property_key (ip req1)) <> []) as Hne.
  { rewrite Ht. by destruct (transcript (sworld s) (property_key (ip req1))). }
  eexists b1, resp1, _. split_and!; [done|done| |].
  - apply (next_arrival_history srv own3 _ (property_key (ip req1)) between2 req2 b2
             Hown3 Ho2 Hne Hb2). by rewrite Hip.
  - cbn [s_input]. rewrite Ht. by rewrite <- app_assoc.
Qed.

(** X13.  After a chat request of a returning caller that is answered 500,
    with no step of the same caller between its arrival and its response,
    the next chat request of that caller, if no other request of the caller
    arrives or goes on before it, hands to the chain a history in which the
    entry of the unanswered question stands directly before the entry of the
    new question. *)
Theorem retry_sees_the_unanswered_question
    (srv : Services) (s : server) (req1 req2 : request)
    (between1 between2 : list action) (rsp1 : response) (b1 b2 : jsobj) :
  serving srv s ->
  let u := property_key (ip req1) in
  let s2 := run srv between1 (act srv (Arrive req1) s).2 in
  let s3 := (act srv (Resume (next_id s)) s2).2 in
  let s4 := run srv between2 s3 in
  is_Some (userConvHistories (sworld s) !! u) ->
  body req1 = Some b1 ->
  others_only srv u between1 (act srv (Arrive req1) s).2 ->
  (act srv (Resume (next_id s)) s2).1 = Some rsp1 -> status rsp1 = 500 ->
  others_only srv u between2 s3 ->
  body req2 = Some b2 -> ip req2 = ip req1 ->
  exists p,
    in_flight (act srv (Arrive req2) s4).2 !! next_id s4 = Some p /\
    s_input p =
      {[ "question" := get_prop b2 "question";
         "conv_history" :=
           JStr (formatConvHistory
                   (transcript (sworld s) u
                      ++ [human_entry (get_prop b1 "question");
                          human_entry (get_prop b2 "question")])) ]}.
Proof.
  intros Hs. cbv zeta. intros Hstored Hb1 Ho1 Hrun Hst Ho2 Hb2 Hip.
  destruct (serving_owned srv s Hs) as [own Hown].
  destruct (resumed_undisturbed srv own s req1 b1 between1 Hown Hb1
              (or_intror Hstored) Ho1) as [[_ Ht]|(resp & Hr & _)];
    [|rewrite Hr in Hrun; injection Hrun as <-; done].
  destruct Hstored as [r Hr]. rewrite Hr in Ht.
  destruct (act_owned srv own (Arrive req1) s Hown) as (own1 & Hown1 & _).
  destruct (run_owned srv between1 own1 _ Hown1) as [own2 Hown2].
  destruct (act_owned srv own2 (Resume (next_id s)) _ Hown2) as (own3 & Hown3 & _).
  assert (transcript
            (sworld (act srv (Resume (next_id s))
                       (run srv between1 (act srv (Arrive req1) s).2)).2)
            (property_key (ip req1)) <> []) as Hne.
  { rewrite Ht. by destruct (transcript (sworld s) (property_key (ip req1))). }
  eexists. split.
  - apply (next_arrival_history srv own3 _ (property_key (ip req1)) between2 req2 b2
             Hown3 Ho2 Hne Hb2). by rewrite Hip.
  - cbn [s_input]. rewrite Ht. by rewrite <- app_assoc.
Qed.

Lemma next_request_sees_the_exchange_witness :
  let u := property_key (ip (ask "Is it free?")) in
  let s2 := run stub_services [Arrive (ask_from "10.0.0.7" "Hello")]
              (act stub_services (Arrive (ask "Is it free?")) served_one).2 in
  let s3 := (act stub_services (Resume (next_id served_one)) s2).2 in
  let s4 := run stub_services [Resume 2] s3 in
  exists b1 resp1 p,
    body (ask "Is it free?") = Some b1 /\
    json {| status := 200; json := {[ "response" := JStr "Courses." ]} |}
      = {[ "response" := JStr resp1 ]} /\
    in_flight (act stub_services (Arrive (ask "Why?")) s4).2 !! next_id s4 = Some p /\
    s_input p =
      {[ "question" := get_prop {[ "question" := JStr "Why?" ]} "question";
         "conv_history" :=
           JStr (formatConvHistory
                   (transcript (sworld served_one) u
                      ++ [human_entry (get_prop b1 "question"); ai_entry resp1;
                          human_entry (get_prop {[ "question" := JStr "Why?" ]}
                                         "question")])) ]}.
Proof.
  refine (next_request_sees_the_exchange stub_services served_one
            (ask "Is it free?") (ask "Why?")
            [Arrive (ask_from "10.0.0.7" "Hello")] [Resume 2]
            {| status := 200; json := {[ "response" := JStr "Courses." ]} |}
            {[ "question" := JStr "Why?" ]}
            (serving_act _ (Resume 0) _
               (serving_act _ (Arrive (ask "What does Scrimba offer?")) _
                  (serving_idle _)))
            _ eq_refl eq_refl _ eq_refl eq_refl);
    vm_compute; repeat split; discriminate.
Defined.

Lemma retry_sees_the_unanswered_question_witness :
  let u := property_key (ip (ask "Is it free?")) in
  let s2 := run failing_later_services [Arrive (ask_from "10.0.0.7" "Hello")]
              (act failing_later_services (Arrive (ask "Is it free?"))
                 served_then_down).2 in
  let s3 := (act failing_later_services (Resume (next_id served_then_down)) s2).2 in
  let s4 := run failing_later_services [Resume 2] s3 in
  exists p,
    in_flight (act failing_later_services (Arrive (ask "Is it free?")) s4).2
      !! next_id s4 = Some p /\
    s_input p =
      {[ "question" := get_prop {[ "question" := JStr "Is it free?" ]} "question";
         "conv_history" :=
           JStr (formatConvHistory
                   (transcript (sworld served_then_down) u
                      ++ [human_entry (get_prop {[ "question" := JStr "Is it free?" ]}
                                         "question");
                          human_entry (get_prop {[ "question" := JStr "Is it free?" ]}
                                         "question")])) ]}.
Proof.
  refine (retry_sees_the_unanswered_question failing_later_services served_then_down
            (ask "Is it free?") (ask "Is it free?")
            [Arrive (ask_from "10.0.0.7" "Hello")] [Resume 2]
            internal_server_error
            {[ "question" := JStr "Is it free?" ]}
            {[ "question" := JStr "Is it free?" ]}
            (serving_act _ (Resume 0) _
               (serving_act _ (Arrive (ask "What does Scrimba offer?")) _
                  (serving_idle _)))
            _ eq_refl _ eq_refl eq_refl _ eq_refl eq_refl).
  - vm_compute. by eexists.
  - vm_compute. repeat split; discriminate.
  - vm_compute. repeat split; discriminate.
Defined.

(** ** Two first requests of one caller that overlap *)

(** The arrival of a request of a caller with nothing stored: a new array
    with the question entry, held by the suspended request and not stored. *)
Lemma arrive_new_caller (srv : Services) (own : nat -> string) (s : server)
    (req : request) (b : jsobj) :
  owned own s -> body req = Some b ->
  userConvHistories (sworld s) !! property_key (ip req) = None ->
  inherited (property_key (ip req)) = false ->
  let q := get_prop b "question" in
  act srv (Arrive req) s =
    (None,
     {| sworld := set_arrays (sworld s) (arrays (sworld s) ++ [[human_entry q]]);
        in_flight :=
          <[next_id s :=
              {| s_userId := property_key (ip req);
                 s_convHistory := ArrayRef (length (arrays (sworld s)));
                 s_input := {[ "question" := q;
                               "conv_history" :=
                                 JStr (formatConvHistory [human_entry q]) ]} |}]>
            (in_flight s);
        next_id := S (next_id s) |}).
Proof.
  intros Hown Hb Hs Hi. cbv zeta. pose proof (owned_wf own s Hown) as Hwf.
  cbn [act].
  rewrite (chat_until_await_run req b (sworld s) Hb Hwf (or_introl Hi)).
  cbv zeta. unfold opened, transcript. rewrite Hs.
  cbn [fst snd arrays set_arrays app].
  rewrite insert_app_r_alt by lia. rewrite Nat.sub_diag. reflexivity.
Qed.

(** X19.  Two first requests of one caller that overlap lose an exchange.
    When a caller with nothing stored sends a second request while the first
    waits at its await, each request holds an array of its own; the first to
    be answered saves its question and answer, and the second, when it is
    answered, saves its own array in its place: the stored transcript then
    holds the second exchange only. *)
Theorem overlapping_first_requests_lose_an_exchange
    (srv : Services) (s : server) (reqA reqB : request) (bA bB : jsobj)
    (rspA rspB : response) :
  serving srv s ->
  let u := property_key (ip reqA) in
  let s2 := run srv [Arrive reqA; Arrive reqB] s in
  let s3 := (act srv (Resume (next_id s)) s2).2 in
  let s4 := (act srv (Resume (S (next_id s))) s3).2 in
  body reqA = Some bA -> body reqB = Some bB -> ip reqB = ip reqA ->
  userConvHistories (sworld s) !! u = None -> inherited u = false ->
  (act srv (Resume (next_id s)) s2).1 = Some rspA -> status rspA = 200 ->
  (act srv (Resume (S (next_id s))) s3).1 = Some rspB -> status rspB = 200 ->
  exists respA respB,
    json rspA = {[ "response" := JStr respA ]} /\
    json rspB = {[ "response" := JStr respB ]} /\
    transcript (sworld s3) u =
      [human_entry (get_prop bA "question"); ai_entry respA] /\
    transcript (sworld s4) u =
      [human_entry (get_prop bB "question"); ai_entry respB].
Proof.
  intros Hs. cbv zeta. intros HbA HbB Hip Hnone Hi.
  destruct (serving_owned srv s Hs) as [own Hown].
  destruct (act_owned srv own (Arrive reqA) s Hown) as (own1 & Hown1 & _).
  cbn [run].
  revert Hown1. rewrite (arrive_new_caller srv own s reqA bA Hown HbA Hnone Hi).
  cbv zeta. cbn [snd]. intros Hown1.
  rewrite (arrive_new_caller srv own1 _ reqB bB Hown1 HbB)
    by (cbn [sworld userConvHistories set_arrays]; by rewrite Hip).
  cbv zeta. cbn [snd sworld in_flight next_id arrays set_arrays].
  rewrite Hip.
  set (pA := {| s_userId := property_key (ip reqA);
                s_convHistory := ArrayRef (length (arrays (sworld s)));
                s_input := _ |}).
  set (pB := {| s_userId := property_key (ip reqA);
                s_convHistory :=
                  ArrayRef (length (arrays (sworld s) ++ [[human_entry (get_prop bA "question")]]));
                s_input := _ |}).
  rewrite (act_resume srv _ (next_id s) pA)
    by (cbn [in_flight]; rewrite lookup_insert_ne by lia; apply lookup_insert_eq).
  cbn [fst snd sworld].
  rewrite (chat_from_await_run srv pA (length (arrays (sworld s)))
             [human_entry (get_prop bA "question")] _ eq_refl).
  2: { cbn [arrays set_arrays]. rewrite lookup_app_l by (rewrite length_app; cbn; lia).
       rewrite lookup_app_r by lia. by rewrite Nat.sub_diag. }
  destruct (chain srv (s_input pA) _) as [[respA|e] wA];
    cbn [fst snd sent sworld in_flight next_id];
    intros HrunA HstA; injection HrunA as <-; [|done].
  rewrite (act_resume srv _ (S (next_id s)) pB)
    by (cbn [in_flight]; rewrite lookup_delete_ne by lia; apply lookup_insert_eq).
  cbn [fst snd sworld].
  rewrite (chat_from_await_run srv pB
             (length (arrays (sworld s) ++ [[human_entry (get_prop bA "question")]]))
             [human_entry (get_prop bB "question")] _ eq_refl).
  2: { cbn [arrays set_arrays].
       rewrite list_lookup_insert_ne by (rewrite length_app; cbn; lia).
       rewrite lookup_app_r by lia. by rewrite Nat.sub_diag. }
  cbn [userConvHistories arrays set_arrays].
  destruct (chain srv (s_input pB) _) as [[respB|e] wB];
    cbn [fst snd sent sworld];
    intros HrunB HstB; injection HrunB as <-; [|done].
  exists respA, respB. split_and!; [done|done| |].
  - unfold transcript. cbn [userConvHistories arrays].
    rewrite lookup_insert_eq, list_lookup_insert_eq
      by (rewrite !length_app; cbn; lia). done.
  - unfold transcript. cbn [userConvHistories arrays s_userId pB].
    rewrite lookup_insert_eq, list_lookup_insert_eq
      by (rewrite length_insert, !length_app; cbn; lia). done.
Qed.

Lemma overlapping_first_requests_lose_an_exchange_witness :
  let u := property_key (ip (ask_from "10.0.0.7" "A")) in
  let s2 := run stub_services
              [Arrive (ask_from "10.0.0.7" "A"); Arrive (ask_from "10.0.0.7" "B")]
              served_one in
  let s3 := (act stub_services (Resume (next_id served_one)) s2).2 in
  let s4 := (act stub_services (Resume (S (next_id served_one))) s3).2 in
  exists respA respB,
    json {| status := 200; json := {[ "response" := JStr "Courses." ]} |}
      = {[ "response" := JStr respA ]} /\
    json {| status := 200; json := {[ "response" := JStr "Courses." ]} |}
      = {[ "response" := JStr respB ]} /\
    transcript (sworld s3) u =
      [human_entry (get_prop {[ "question" := JStr "A" ]} "question"); ai_entry respA] /\
    transcript (sworld s4) u =
      [human_entry (get_prop {[ "question" := JStr "B" ]} "question"); ai_entry respB].
Proof.
  exact (overlapping_first_requests_lose_an_exchange stub_services served_one
           (ask_from "10.0.0.7" "A") (ask_from "10.0.0.7" "B")
           {[ "question" := JStr "A" ]} {[ "question" := JStr "B" ]}
           {| status := 200; json := {[ "response" := JStr "Courses." ]} |}
           {| status := 200; json := {[ "response" := JStr "Courses." ]} |}
           (serving_act _ (Resume 0) _
              (serving_act _ (Arrive (ask "What does Scrimba offer?")) _
                 (serving_idle _)))
           eq_refl eq_refl eq_refl eq_refl eq_refl eq_refl eq_refl eq_refl eq_refl).
Defined.

(** X20.  In every state the server can be in, requests overlapping as they
    may, no two keys of the store refer to the same array, every stored key
    refers to an array that exists, and the array a suspended request holds
    exists and is stored under no other caller's key. *)
Theorem arrays_have_one_owner (srv : Services) (s : server) :
  serving srv s ->
  (forall u1 u2 r, userConvHistories (sworld s) !! u1 = Some r ->
                   userConvHistories (sworld s) !! u2 = Some r -> u1 = u2) /\
  (forall u r, userConvHistories (sworld s) !! u = Some r ->
               is_Some (arrays (sworld s) !! r)) /\
  (forall id p, in_flight s !! id = Some p ->
     exists r, s_convHistory p = ArrayRef r /\
               is_Some (arrays (sworld s) !! r) /\
               forall u, userConvHistories (sworld s) !! u = Some r ->
                         u = s_userId p).
Proof.
  intros Hs. destruct (serving_owned srv s Hs) as [own Hown].
  destruct (owned_wf own s Hown) as [Hb Hi]. destruct Hown as [Hst Hfl].
  split_and!; [exact Hi| |].
  - intros u r Hu. apply lookup_lt_is_Some_2. by eapply Hb.
  - intros id p Hp. destruct (Hfl _ _ Hp) as (_ & r & Hr & Hlt & Ho).
    exists r. split_and!; [done|by apply lookup_lt_is_Some_2|].
    intros u Hu. destruct (Hst _ _ Hu) as [_ <-]. done.
Qed.

Lemma arrays_have_one_owner_witness :
  let s := run stub_services
             [Arrive (ask_from "10.0.0.7" "A"); Arrive (ask "B")] served_one in
  (forall u1 u2 r, userConvHistories (sworld s) !! u1 = Some r ->
                   userConvHistories (sworld s) !! u2 = Some r -> u1 = u2) /\
  (forall u r, userConvHistories (sworld s) !! u = Some r ->
               is_Some (arrays (sworld s) !! r)) /\
  (forall id p, in_flight s !! id = Some p ->
     exists r, s_convHistory p = ArrayRef r /\
               is_Some (arrays (sworld s) !! r) /\
               forall u, userConvHistories (sworld s) !! u = Some r ->
                         u = s_userId p).
Proof.
  exact (arrays_have_one_owner stub_services
           (run stub_services
              [Arrive (ask_from "10.0.0.7" "A"); Arrive (ask "B")] served_one)
           (serving_act _ (Arrive (ask "B")) _
              (serving_act _ (Arrive (ask_from "10.0.0.7" "A")) _
                 (serving_act _ (Resume 0) _
                    (serving_act _ (Arrive (ask "What does Scrimba offer?")) _
                       (serving_idle _)))))).
Defined.
